(** * Wind-for-Schools report: a shallow embedding of the analysis pipeline

    The development follows the two Python sources of the repository,
    [project_report/main.py] (CSV pipeline: clean, summarise, map, analyse,
    report) and [project_report/script.py] (the same aggregation over a
    literal eight-record table).

    Numbers.  A pandas float cell is modelled as [option Q]: [None] is NaN,
    the missing marker, and [Some q] is a finite value.  Arithmetic is exact
    rational arithmetic, so binary64 rounding and the infinities are outside
    the model; equalities between numeric results are stated up to [Qeq].

    Frames.  A [DataFrame] is its header (the list of column labels that are
    present) together with its records.  Reading a column that is not in the
    header raises [KeyError], as [df['...']] does.  The fields of a record
    under a label that is not in the header are never read.

    Libraries.  The pandas, scipy and folium calls of the sources are given
    by their documented behaviour: pandas reductions skip missing cells,
    [value_counts], [nunique] and [groupby] leave missing labels out,
    [scipy.stats.pearsonr] skips nothing, raises below two observations and,
    from three observations on, raises on a missing value through the
    finiteness check of [scipy.linalg.norm] (releases 1.3 to 1.13; later
    releases return NaN at that point, and the properties below that speak of
    a missing value there are stated so as to hold for both),
    [folium] rejects a NaN coordinate.  The unit counts of a frame are
    numeric: a text cell in that column is outside the model.  The two conversions from text to
    number, Python's [float] and [pandas.to_numeric], are parameters of the
    cleaning stage; the worked examples instantiate them with a reader of
    plain decimal numerals.  Plotting is not modelled. *)

From Stdlib Require Import String Ascii List Bool Arith ZArith QArith Qabs Qround Lia Lqa.
From Stdlib Require Import Permutation Sorted.
From Stdlib Require DecimalString.
Import ListNotations.

Local Open Scope string_scope.
Local Open Scope list_scope.
Local Open Scope nat_scope.

(** ** Errors *)

Inductive error : Type :=
| KeyError (label : string)
| ValueError (msg : string)
| TypeError (msg : string).

Inductive result (A : Type) : Type :=
| Ok (a : A)
| Err (e : error).
Arguments Ok {A} a.
Arguments Err {A} e.

Definition bind {A B : Type} (m : result A) (f : A -> result B) : result B :=
  match m with
  | Ok a => f a
  | Err e => Err e
  end.

Notation "x <- m ;; k" := (bind m (fun x => k))
  (at level 61, m at next level, right associativity).

Definition aborted {A : Type} (m : result A) : Prop := exists e, m = Err e.

Fixpoint mapM {A B : Type} (f : A -> result B) (l : list A) : result (list B) :=
  match l with
  | [] => Ok []
  | a :: l' => b <- f a ;; bs <- mapM f l' ;; Ok (b :: bs)
  end.

(** ** Floats with a missing marker *)

Definition float : Type := option Q.
Definition NaN : float := None.

Definition isna (x : float) : bool :=
  match x with Some _ => false | None => true end.
Definition notna (x : float) : bool := negb (isna x).

(** Equality of float results: NaN matches NaN, finite values up to [Qeq]. *)
Definition feq (x y : float) : Prop :=
  match x, y with
  | Some a, Some b => (a == b)%Q
  | None, None => True
  | _, _ => False
  end.
Infix "=f=" := feq (at level 70, no associativity).

(** IEEE comparison [==]: false as soon as one side is NaN. *)
Definition feqb (x y : float) : bool :=
  match x, y with
  | Some a, Some b => Qeq_bool a b
  | _, _ => false
  end.

(** NaN-propagating arithmetic (numpy element-wise operations). *)
Definition fmap2 (op : Q -> Q -> Q) (x y : float) : float :=
  match x, y with
  | Some a, Some b => Some (op a b)
  | _, _ => None
  end.
Definition fadd : float -> float -> float := fmap2 Qplus.
Definition fsub : float -> float -> float := fmap2 Qminus.
Definition fmul : float -> float -> float := fmap2 Qmult.

Definition Qsum (l : list Q) : Q := fold_right Qplus 0%Q l.

Definition Qof_nat (n : nat) : Q := inject_Z (Z.of_nat n).

(** [numpy.sum], [numpy.mean], [numpy.dot]: no skipping, NaN propagates. *)
Definition np_sum (l : list float) : float := fold_right fadd (Some 0%Q) l.
Definition np_mean (l : list float) : float :=
  match np_sum l with
  | Some s => if Nat.eqb (length l) 0 then None else Some (s / Qof_nat (length l))%Q
  | None => None
  end.
Fixpoint np_dot (u v : list float) : float :=
  match u, v with
  | a :: u', b :: v' => fadd (fmul a b) (np_dot u' v')
  | _, _ => Some 0%Q
  end.

(** ** pandas reductions (skipna=True, the default) *)

(** The non-missing values of a column. *)
Fixpoint dropna (l : list float) : list Q :=
  match l with
  | [] => []
  | Some q :: l' => q :: dropna l'
  | None :: l' => dropna l'
  end.

(** [Series.sum()]: missing cells are replaced by 0 before adding, the sum
    of no value at all is 0 ([min_count=0]). *)
Definition Series_sum (l : list float) : float :=
  Some (fold_right (fun x acc => (match x with Some q => q | None => 0 end + acc)%Q) 0%Q l).

(** [Series.count()]: number of non-missing cells. *)
Definition Series_count (l : list float) : nat := length (filter notna l).

(** Float division of a sum by a count: 0 divisor gives NaN (here 0.0/0). *)
Definition fdiv_count (s : float) (n : nat) : float :=
  match s with
  | Some q => if Nat.eqb n 0 then None else Some (q / Qof_nat n)%Q
  | None => None
  end.

(** [Series.mean()]: the skipping sum divided by the count of non-missing
    cells; NaN when there is none. *)
Definition Series_mean (l : list float) : float :=
  fdiv_count (Series_sum l) (Series_count l).

(** ** Records and frames *)

(** A cell of a column that read_csv could not type as numeric holds the
    field's text; a cell of a numeric column holds a float. *)
Inductive cell : Type :=
| Text (s : string)
| Number (x : float).

Record Row : Type := mkRow {
  Turbine_ID : option string;
  Project_Name : option string;
  Facility : option string;
  State : option string;
  Coordinates : option string;
  Installed_Capacity : cell;
  Number_of_Units : float;
  Latitude : float;
  Longitude : float
}.

Record DataFrame : Type := mkDF {
  columns : list string;
  rows : list Row
}.

Definition has_column (df : DataFrame) (label : string) : bool :=
  existsb (String.eqb label) (columns df).

(** [df[label]] *)
Definition getitem {A : Type} (df : DataFrame) (label : string) (field : Row -> A)
  : result (list A) :=
  if has_column df label then Ok (map field (rows df)) else Err (KeyError label).

(** A numeric reduction over a column needs every cell to be a float. *)
Definition as_float (c : cell) : result float :=
  match c with
  | Number x => Ok x
  | Text s => Err (TypeError "could not convert string to numeric")
  end.

Definition numeric (l : list cell) : result (list float) := mapM as_float l.

(** The float held by a cell (NaN for a text cell, which a cleaned frame
    does not have). *)
Definition cell_float (c : cell) : float :=
  match c with
  | Number x => x
  | Text _ => None
  end.

(** The capacity of a record of a cleaned frame. *)
Definition capacity (r : Row) : float := cell_float (Installed_Capacity r).

(** ** Sorting, counting and grouping *)

Section Sorting.
Context {A : Type}.
(** [before x y]: [x] may stand in front of [y]. *)
Variable before : A -> A -> bool.

Fixpoint insert_sorted (x : A) (l : list A) : list A :=
  match l with
  | [] => [x]
  | y :: l' => if before x y then x :: y :: l' else y :: insert_sorted x l'
  end.

(** Stable sort: among records that compare equal the earlier one stays
    in front. *)
Definition sort_by (l : list A) : list A := fold_right insert_sorted [] l.
End Sorting.

(** [Series.head(n)] *)
Definition head {A : Type} (n : nat) (l : list A) : list A := firstn n l.

(** The non-missing labels of a column. *)
Fixpoint somes {A : Type} (l : list (option A)) : list A :=
  match l with
  | [] => []
  | Some a :: l' => a :: somes l'
  | None :: l' => somes l'
  end.

(** Distinct labels in order of first appearance. *)
Fixpoint unique (l : list string) : list string :=
  match l with
  | [] => []
  | x :: l' => x :: filter (fun y => negb (String.eqb y x)) (unique l')
  end.

Definition is_label (k : string) (o : option string) : bool :=
  match o with
  | Some s => String.eqb s k
  | None => false
  end.

Definition occurrences (k : string) (l : list (option string)) : nat :=
  length (filter (is_label k) l).

(** [Series.nunique()]: missing labels are not counted. *)
Definition nunique (l : list (option string)) : nat := length (unique (somes l)).

(** [Series.value_counts()]: one entry per distinct non-missing label, most
    frequent first; labels of equal frequency are kept in order of first
    appearance. *)
Definition value_counts (l : list (option string)) : list (string * nat) :=
  sort_by (fun a b => Nat.leb (snd b) (snd a))
    (map (fun k => (k, occurrences k l)) (unique (somes l))).

(** [groupby(label)[column].agg(['sum', 'mean', 'count'])] *)
Record Agg : Type := mkAgg {
  agg_sum : float;
  agg_mean : float;
  agg_count : nat
}.

Definition agg (vals : list float) : Agg :=
  {| agg_sum := Series_sum vals;
     agg_mean := Series_mean vals;
     agg_count := Series_count vals |}.

(** The values of the records whose key is [k]. *)
Definition group_values (k : string) (keyed : list (option string * float)) : list float :=
  map snd (filter (fun kv => is_label k (fst kv)) keyed).

(** Groups are the distinct non-missing keys in sorted order; records whose
    key is missing belong to no group ([dropna=True]). *)
Definition group_keys (keys : list (option string)) : list string :=
  sort_by String.leb (unique (somes keys)).

Definition groupby_agg (keys : list (option string)) (vals : list float)
  : list (string * Agg) :=
  let keyed := combine keys vals in
  map (fun k => (k, agg (group_values k keyed))) (group_keys keys).

(** [Series.sort_values(ascending=False)] on float values: NaN goes last. *)
Definition float_geb (x y : float) : bool :=
  match x, y with
  | _, None => true
  | None, Some _ => false
  | Some a, Some b => Qle_bool b a
  end.

Definition sort_values_desc (s : list (string * float)) : list (string * float) :=
  sort_by (fun a b => float_geb (snd a) (snd b)) s.

(** ** Cleaning: [load_and_clean_data] *)

(** [str.split(sep)] of Python: one more part than there are separators. *)
Fixpoint split (sep : ascii) (s : string) : list string :=
  match s with
  | EmptyString => [EmptyString]
  | String c s' =>
      if Ascii.eqb c sep then EmptyString :: split sep s'
      else match split sep s' with
           | h :: t => String c h :: t
           | [] => [String c EmptyString]
           end
  end.

(** Parts of one cell for [Series.str.split]; a missing cell stays missing. *)
Definition cell_parts (sep : ascii) (c : option string) : list (option string) :=
  match c with
  | Some s => map Some (split sep s)
  | None => [None]
  end.

Definition pad (w : nat) (l : list (option string)) : list (option string) :=
  l ++ repeat None (w - length l).

(** [Series.str.split(sep, expand=True)]: as many columns as the longest
    split, shorter rows padded with missing cells.  The result is given as
    its width and its rows. *)
Definition str_split_expand (sep : ascii) (col : list (option string))
  : nat * list (list (option string)) :=
  let parts := map (cell_parts sep) col in
  let w := fold_right Nat.max 0 (map (@length _) parts) in
  (w, map (pad w) parts).

Section Cleaning.
(** Python's [float(text)] as used by [astype(float)], and the scalar
    conversion of [pandas.to_numeric]: [None] when the text is not a
    number ([Some NaN] for a text that spells NaN). *)
Variable float_of_string : string -> option float.
Variable to_numeric_text : string -> option float.

Definition astype_float (c : option string) : result float :=
  match c with
  | None => Ok NaN
  | Some s =>
      match float_of_string s with
      | Some x => Ok x
      | None => Err (ValueError "could not convert string to float")
      end
  end.

(** [df[[a, b]] = value]: the value must have exactly two columns. *)
Definition as_pair (r : list float) : result (float * float) :=
  match r with
  | [a; b] => Ok (a, b)
  | _ => Err (ValueError "Columns must be same length as key")
  end.

Definition setitem_pair (w : nat) (value : list (list float))
  : result (list (float * float)) :=
  if Nat.eqb w 2 then mapM as_pair value
  else Err (ValueError "Columns must be same length as key").

(** [pd.to_numeric(..., errors='coerce')] on one cell. *)
Definition to_numeric_coerce (c : cell) : cell :=
  match c with
  | Number x => Number x
  | Text s =>
      match to_numeric_text s with
      | Some x => Number x
      | None => Number NaN
      end
  end.

Definition add_column (label : string) (cols : list string) : list string :=
  if existsb (String.eqb label) cols then cols else cols ++ [label].

Definition set_coordinates (r : Row) (ll : float * float) : Row :=
  {| Turbine_ID := Turbine_ID r; Project_Name := Project_Name r;
     Facility := Facility r; State := State r; Coordinates := Coordinates r;
     Installed_Capacity := Installed_Capacity r;
     Number_of_Units := Number_of_Units r;
     Latitude := fst ll; Longitude := snd ll |}.

Definition set_capacity (r : Row) (c : cell) : Row :=
  {| Turbine_ID := Turbine_ID r; Project_Name := Project_Name r;
     Facility := Facility r; State := State r; Coordinates := Coordinates r;
     Installed_Capacity := c;
     Number_of_Units := Number_of_Units r;
     Latitude := Latitude r; Longitude := Longitude r |}.

(** [load_and_clean_data], from the frame that [pd.read_csv] returned. *)
Definition load_and_clean_data (df : DataFrame) : result DataFrame :=
  coords <- getitem df "Coordinates" Coordinates ;;
  let '(w, parts) := str_split_expand "," coords in
  floats <- mapM (mapM astype_float) parts ;;
  latlon <- setitem_pair w floats ;;
  let df1 := {| columns := add_column "Longitude" (add_column "Latitude" (columns df));
                rows := map (fun p => set_coordinates (fst p) (snd p))
                            (combine (rows df) latlon) |} in
  caps <- getitem df1 "Installed_Capacity" Installed_Capacity ;;
  Ok {| columns := columns df1;
        rows := map (fun p => set_capacity (fst p) (to_numeric_coerce (snd p)))
                    (combine (rows df1) caps) |}.
End Cleaning.

(** ** Aggregation: [generate_statistical_summary] *)

(** The summary dictionary.  Its ['capacity_stats'] entry ([describe()]) is
    read by no later stage and is left out. *)
Record StatsSummary : Type := mkStats {
  total_projects : nat;
  total_states : nat;
  total_capacity : float;
  avg_capacity : float;
  state_counts : list (string * nat);
  facility_counts : list (string * nat)
}.

Definition generate_statistical_summary (df : DataFrame) : result StatsSummary :=
  states <- getitem df "State" State ;;
  cells <- getitem df "Installed_Capacity" Installed_Capacity ;;
  caps <- numeric cells ;;
  facilities <- getitem df "Facility" Facility ;;
  Ok {| total_projects := length (rows df);
        total_states := nunique states;
        total_capacity := Series_sum caps;
        avg_capacity := Series_mean caps;
        state_counts := value_counts states;
        facility_counts := value_counts facilities |}.

(** ** Correlation: [scipy.stats.pearsonr] *)

(** The coefficient is [num / sqrt den2]; keeping the square of the
    denominator avoids square roots of rationals. *)
Inductive corr : Type :=
| CorrNaN
| Corr (num den2 : Q).

(** [(x == x[0]).all()] *)
Definition is_constant (x : list float) : bool :=
  match x with
  | [] => true
  | x0 :: _ => forallb (fun v => feqb v x0) x
  end.

(** [numpy.sign] *)
Definition fsign (x : float) : float :=
  match x with
  | Some q => Some (inject_Z (Z.sgn (Qnum q)))
  | None => None
  end.

(** [scipy.linalg.norm], squared.  Its [check_finite] default rejects an
    array that holds a NaN. *)
Definition linalg_norm2 (v : list float) : result Q :=
  match np_dot v v with
  | Some n2 => Ok n2
  | None => Err (ValueError "array must not contain infs or NaNs")
  end.

Definition pearsonr (x y : list float) : result corr :=
  let n := length x in
  if negb (Nat.eqb n (length y)) then Err (ValueError "x and y must have the same length.")
  else if Nat.ltb n 2 then Err (ValueError "x and y must have length at least 2.")
  else if is_constant x || is_constant y then Ok CorrNaN
  else if Nat.eqb n 2 then
    match fmul (fsign (fsub (nth 1 x NaN) (nth 0 x NaN)))
               (fsign (fsub (nth 1 y NaN) (nth 0 y NaN))) with
    | Some s => Ok (Corr s 1)
    | None => Ok CorrNaN
    end
  else
    let xmean := np_mean x in
    let ymean := np_mean y in
    let xm := map (fun v => fsub v xmean) x in
    let ym := map (fun v => fsub v ymean) y in
    normxm2 <- linalg_norm2 xm ;;
    normym2 <- linalg_norm2 ym ;;
    match np_dot xm ym with
    | Some a => Ok (Corr a (normxm2 * normym2))
    | None => Ok CorrNaN
    end.

(** ** Analysis: [perform_analysis] *)

Record AnalysisResults : Type := mkAnalysis {
  capacity_by_state : list (string * Agg);
  capacity_by_facility : list (string * Agg);
  capacity_units_correlation : corr
}.

Definition perform_analysis (df : DataFrame) : result AnalysisResults :=
  states <- getitem df "State" State ;;
  cells <- getitem df "Installed_Capacity" Installed_Capacity ;;
  caps <- numeric cells ;;
  facilities <- getitem df "Facility" Facility ;;
  units <- getitem df "Number_of_Units" Number_of_Units ;;
  r <- pearsonr units caps ;;
  Ok {| capacity_by_state := groupby_agg states caps;
        capacity_by_facility := groupby_agg facilities caps;
        capacity_units_correlation := r |}.

(** ** Map: [create_map] *)

Record Marker : Type := mkMarker {
  location : Q * Q;
  popup_project : option string;
  popup_facility : option string;
  popup_capacity : cell
}.

Record Map : Type := mkMap {
  map_location : Q * Q;
  markers : list Marker
}.

(** [folium.utilities.validate_location], called by [folium.Map] and by the
    marker constructor: a NaN coordinate is rejected. *)
Definition validate_location (lat lon : float) : result (Q * Q) :=
  match lat, lon with
  | Some a, Some b => Ok (a, b)
  | _, _ => Err (ValueError "Location values cannot contain NaNs.")
  end.

(** [row[label]] inside the [iterrows] loop. *)
Definition row_item {A : Type} (df : DataFrame) (label : string) (v : A) : result A :=
  if has_column df label then Ok v else Err (KeyError label).

Definition circle_marker (df : DataFrame) (row : Row) : result Marker :=
  lat <- row_item df "Latitude" (Latitude row) ;;
  lon <- row_item df "Longitude" (Longitude row) ;;
  project <- row_item df "Project_Name" (Project_Name row) ;;
  facility <- row_item df "Facility" (Facility row) ;;
  cap <- row_item df "Installed_Capacity" (Installed_Capacity row) ;;
  loc <- validate_location lat lon ;;
  Ok {| location := loc; popup_project := project;
        popup_facility := facility; popup_capacity := cap |}.

Definition create_map (df : DataFrame) : result Map :=
  lats <- getitem df "Latitude" Latitude ;;
  lons <- getitem df "Longitude" Longitude ;;
  centre <- validate_location (Series_mean lats) (Series_mean lons) ;;
  ms <- mapM (circle_marker df) (rows df) ;;
  Ok {| map_location := centre; markers := ms |}.

(** ** Number formatting: the [:.2f] format specification *)

(** Nearest integer, ties to the even neighbour.  The exact value is
    rounded; Python rounds the binary64 value, which can fall on the other
    side of a decimal tie. *)
Definition round_half_even (q : Q) : Z :=
  let f := Qfloor q in
  match Qcompare (q - inject_Z f) (1 # 2) with
  | Lt => f
  | Gt => (f + 1)%Z
  | Eq => if Z.even f then f else (f + 1)%Z
  end.

Definition digit (n : Z) : string :=
  String (ascii_of_N (48 + Z.to_N n)) EmptyString.

Definition decimal (n : Z) : string :=
  DecimalString.NilZero.string_of_uint (N.to_uint (Z.to_N n)).

(** Text of a magnitude given in hundredths. *)
Definition hundredths_text (negative : bool) (k : Z) : string :=
  (if negative then "-" else "")
    ++ decimal (k / 100) ++ "." ++ digit ((k mod 100) / 10) ++ digit (k mod 10).

Definition format_2f (x : float) : string :=
  match x with
  | None => "nan"
  | Some q => hundredths_text (negb (Qle_bool 0 q)) (round_half_even (Qabs q * 100))
  end.

(** Nearest number of hundredths to [100 * |num| / sqrt den2], at most 100
    (the coefficient is clipped to [-1, 1]): the count of the half-way marks
    [(2j - 1) / 200], [j = 1 .. 100], that lie at or below the magnitude. *)
Definition corr_hundredths (num den2 : Q) : Z :=
  let t := (40000 * num * num)%Q in
  let mark j := (inject_Z ((2 * j - 1) * (2 * j - 1)) * den2)%Q in
  let js := map (fun i => Z.of_nat (S i)) (seq 0 100) in
  let strictly := length (filter (fun j => negb (Qle_bool t (mark j))) js) in
  let weakly := length (filter (fun j => Qle_bool (mark j) t) js) in
  if Nat.eqb strictly weakly then Z.of_nat weakly
  else if Nat.even weakly then Z.of_nat weakly else Z.of_nat strictly.

Definition format_corr_2f (c : corr) : string :=
  match c with
  | CorrNaN => "nan"
  | Corr num den2 =>
      if Qle_bool den2 0 then "nan"
      else hundredths_text (negb (Qle_bool 0 num)) (corr_hundredths num den2)
  end.

(** ** Report: [generate_report] *)

(** The report text, field by field in the order of the template; the
    listings are the rows that [to_string()] prints. *)
Record Report : Type := mkReport {
  report_total_projects : nat;
  report_states_covered : nat;
  report_total_capacity : string;
  report_top_states : list (string * nat);
  report_top_facilities : list (string * nat);
  report_avg_capacity : string;
  report_correlation : string;
  report_top_capacity_states : list (string * float)
}.

Definition generate_report (stats_summary : StatsSummary)
  (analysis_results : AnalysisResults) : Report :=
  {| report_total_projects := total_projects stats_summary;
     report_states_covered := total_states stats_summary;
     report_total_capacity := format_2f (total_capacity stats_summary);
     report_top_states := head 3 (state_counts stats_summary);
     report_top_facilities := head 3 (facility_counts stats_summary);
     report_avg_capacity := format_2f (avg_capacity stats_summary);
     report_correlation :=
       format_corr_2f (capacity_units_correlation analysis_results);
     report_top_capacity_states :=
       head 3 (sort_values_desc
                 (map (fun g => (fst g, agg_sum (snd g)))
                      (capacity_by_state analysis_results))) |}.

(** ** The literal table of [script.py] and [analyze_wind_data] *)

Definition script_row (id project facility state : string) (cap : Q) (units : Z) : Row :=
  {| Turbine_ID := Some id; Project_Name := Some project;
     Facility := Some facility; State := Some state;
     Coordinates := None;
     Installed_Capacity := Number (Some cap);
     Number_of_Units := Some (inject_Z units);
     Latitude := NaN; Longitude := NaN |}.

Definition data : list Row :=
  [ script_row "T001" "Project_1" "Community Center" "OK" (1733693 # 1000000) 1;
    script_row "T002" "Project_2" "Technical College" "NY" (1374243 # 1000000) 4;
    script_row "T003" "Project_3" "K-12 School" "KS" (1174680 # 1000000) 4;
    script_row "T004" "Project_4" "Community Center" "IA" (1426943 # 1000000) 2;
    script_row "T005" "Project_5" "Community Center" "OK" (1522472 # 1000000) 4;
    script_row "T006" "Project_6" "Technical College" "IA" (294048 # 1000000) 4;
    script_row "T007" "Project_7" "K-12 School" "TX" (987171 # 1000000) 2;
    script_row "T008" "Project_8" "K-12 School" "KS" (681184 # 1000000) 3 ].

Definition script_df : DataFrame :=
  {| columns := ["Turbine_ID"; "Project_Name"; "Facility"; "State";
                 "Installed_Capacity"; "Number_of_Units"];
     rows := data |}.

Record Summary : Type := mkSummary {
  Total_Projects : nat;
  States_Count : nat;
  Total_Capacity : float;
  Average_Capacity : float;
  State_Distribution : list (string * Agg);
  Facility_Distribution : list (string * Agg)
}.

(** [analyze_wind_data]: of the four plots only the columns they read are
    kept; the figure is not part of the returned summary, and a plotting
    call that raises (a histogram over a missing value) is outside the
    model. *)
Definition analyze_wind_data (df : DataFrame) : result Summary :=
  states <- getitem df "State" State ;;
  facilities <- getitem df "Facility" Facility ;;
  cells <- getitem df "Installed_Capacity" Installed_Capacity ;;
  _ <- getitem df "Number_of_Units" Number_of_Units ;;
  caps <- numeric cells ;;
  Ok {| Total_Projects := length (rows df);
        States_Count := nunique states;
        Total_Capacity := Series_sum caps;
        Average_Capacity := Series_mean caps;
        State_Distribution := groupby_agg states caps;
        Facility_Distribution := groupby_agg facilities caps |}.

(** ** A decimal reader for the worked examples

    Sign, digits and an optional fractional part.  On such numerals it
    agrees with Python's [float] and with [pandas.to_numeric]; every other
    text is reported as not a number. *)

Definition digit_value (c : ascii) : option Z :=
  let n := Z.of_N (N_of_ascii c) in
  if (48 <=? n)%Z && (n <=? 57)%Z then Some (n - 48)%Z else None.

(** Digits read so far as [(value, number of digits)]. *)
Fixpoint read_digits (s : string) (acc : Z) (len : nat) : option (Z * nat) :=
  match s with
  | EmptyString => Some (acc, len)
  | String c s' =>
      match digit_value c with
      | Some d => read_digits s' (acc * 10 + d)%Z (S len)
      | None => None
      end
  end.

Definition read_unsigned (s : string) : option Q :=
  match split "." s with
  | [i] =>
      match read_digits i 0 0 with
      | Some (v, S _) => Some (inject_Z v)
      | _ => None
      end
  | [i; f] =>
      match read_digits i 0 0, read_digits f 0 0 with
      | Some (v, li), Some (w, lf) =>
          if Nat.eqb (li + lf) 0 then None
          else Some (inject_Z v + inject_Z w / inject_Z (10 ^ Z.of_nat lf))%Q
      | _, _ => None
      end
  | _ => None
  end.

Definition read_decimal (s : string) : option float :=
  match s with
  | String "-" s' => option_map (fun q => Some (- q)%Q) (read_unsigned s')
  | String "+" s' => option_map Some (read_unsigned s')
  | _ => option_map Some (read_unsigned s)
  end.

(** ** Vocabulary of the properties *)

(** The number under the [Some] of [Series_sum]. *)
Definition sum_present (l : list float) : Q :=
  fold_right (fun x acc => (match x with Some q => q | None => 0 end + acc)%Q) 0%Q l.

(** The capacity column of a frame whose capacity cells are floats. *)
Definition capacities (df : DataFrame) : list float := map capacity (rows df).

(** Number of records with a non-missing capacity. *)
Definition present_count (df : DataFrame) : nat := length (dropna (capacities df)).

(** Capacities of the records whose [field] carries the label [k]. *)
Definition group_capacities (field : Row -> option string) (k : string)
  (df : DataFrame) : list float :=
  map capacity (filter (fun r => is_label k (field r)) (rows df)).

(** A sum [s] and a mean [m] that were computed from the non-missing values
    of [vals] only: they are the plain sum and the plain mean ([numpy]'s,
    which skip nothing) of the values that are present; with no value
    present the mean is the quotient 0/0, NaN. *)
Definition skips_missing (vals : list float) (s m : float) : Prop :=
  s =f= np_sum (map Some (dropna vals))
  /\ m =f= np_mean (map Some (dropna vals))
  /\ (dropna vals = [] -> m = NaN).

(** Sum of the ['sum'] column of a grouped table. *)
Definition sum_of_group_sums (groups : list (string * Agg)) : float :=
  np_sum (map (fun g => agg_sum (snd g)) groups).

(** A label that is not missing. *)
Definition notna_label (o : option string) : bool :=
  match o with Some _ => true | None => false end.

(** Descending order on counts. *)
Definition count_desc (x y : string * nat) : Prop := snd y <= snd x.

(** Descending order on sums that are numbers. *)
Definition sum_desc (x y : string * float) : Prop :=
  match snd x, snd y with
  | Some a, Some b => (b <= a)%Q
  | _, _ => False
  end.

(** [x] agrees with the two-decimal figure [d]: it is within half a unit of
    the second decimal. *)
Definition approx_2dp (x : float) (d : Q) : Prop :=
  match x with
  | Some q => (Qabs (q - d) <= 1 # 200)%Q
  | None => False
  end.

(** The label [o] is one of the group keys [K]. *)
Definition has_group (K : list string) (o : option string) : bool :=
  existsb (fun k => is_label k o) K.

(** Number of comma-separated components of a record's coordinate cell (a
    missing cell counts as one missing component). *)
Definition components (r : Row) : nat := length (cell_parts "," (Coordinates r)).

(** Width of the frame that [str.split(',', expand=True)] builds. *)
Definition split_width (df : DataFrame) : nat :=
  fold_right Nat.max 0 (map components (rows df)).

Section CleanedRecords.
Variable float_of_string : string -> option float.
Variable to_numeric_text : string -> option float.

(** The float a cell becomes when [astype(float)] accepts it. *)
Definition float_of_cell (c : option string) : float :=
  match c with
  | None => NaN
  | Some s => match float_of_string s with Some x => x | None => NaN end
  end.

(** Latitude and longitude of a record in a frame of width two. *)
Definition row_latlon (r : Row) : float * float :=
  let p := pad 2 (cell_parts "," (Coordinates r)) in
  (float_of_cell (nth 0 p None), float_of_cell (nth 1 p None)).

(** What cleaning makes of one record when it succeeds. *)
Definition clean_row (r : Row) : Row :=
  set_capacity (set_coordinates r (row_latlon r))
               (to_numeric_coerce to_numeric_text (Installed_Capacity r)).
End CleanedRecords.

(** [sep in s] *)
Fixpoint contains (sep : ascii) (s : string) : bool :=
  match s with
  | EmptyString => false
  | String c s' => Ascii.eqb c sep || contains sep s'
  end.

(** A record that has both coordinates. *)
Definition valid_coordinates (r : Row) : bool :=
  notna (Latitude r) && notna (Longitude r).

(** The marker [mk] stands for the record [r]. *)
Definition marks (r : Row) (mk : Marker) : Prop :=
  Latitude r = Some (fst (location mk))
  /\ Longitude r = Some (snd (location mk))
  /\ popup_project mk = Project_Name r
  /\ popup_facility mk = Facility r
  /\ popup_capacity mk = Installed_Capacity r.

(** [counts[k]], 0 for a label that has no entry. *)
Definition count_of (k : string) (counts : list (string * nat)) : nat :=
  match find (fun e => String.eqb (fst e) k) counts with
  | Some e => snd e
  | None => 0
  end.

(** The frame without its record number [i]. *)
Definition drop_record (i : nat) (df : DataFrame) : DataFrame :=
  {| columns := columns df; rows := firstn i (rows df) ++ skipn (S i) (rows df) |}.

(** The observations of the correlation as the specification describes
    them: the records in which both the unit count and the capacity are
    present. *)
Fixpoint pairs_of (l : list Row) : list (Q * Q) :=
  match l with
  | [] => []
  | r :: l' =>
      match Number_of_Units r, capacity r with
      | Some u, Some c => (u, c) :: pairs_of l'
      | _, _ => pairs_of l'
      end
  end.

(** The complete observations of a frame. *)
Definition complete_pairs (df : DataFrame) : list (Q * Q) := pairs_of (rows df).

(** Population variance of a series. *)
Definition variance (l : list Q) : Q :=
  let n := Qof_nat (length l) in
  let m := (Qsum l / n)%Q in
  (Qsum (map (fun x => (x - m) * (x - m))%Q l) / n)%Q.

(** The cases in which the specification calls the correlation undefined. *)
Definition correlation_undefined (df : DataFrame) : Prop :=
  length (complete_pairs df) < 2
  \/ (variance (map fst (complete_pairs df)) == 0)%Q
  \/ (variance (map snd (complete_pairs df)) == 0)%Q.

(** ** Example frames *)

Definition cleaned_columns : list string :=
  ["Turbine_ID"; "Project_Name"; "Facility"; "State"; "Coordinates";
   "Installed_Capacity"; "Number_of_Units"; "Latitude"; "Longitude"].

(** A cleaned record with the given state, capacity, units and position. *)
Definition sample_row (state : option string) (cap units lat lon : float) : Row :=
  {| Turbine_ID := Some "T"; Project_Name := Some "P";
     Facility := Some "K-12 School"; State := state;
     Coordinates := None;
     Installed_Capacity := Number cap;
     Number_of_Units := units;
     Latitude := lat; Longitude := lon |}.

Definition sample_frame (l : list Row) : DataFrame :=
  {| columns := cleaned_columns; rows := l |}.

(** Three records, the second without a capacity. *)
Definition one_missing_df : DataFrame :=
  sample_frame
    [ sample_row (Some "OK") (Some 1%Q) (Some 1%Q) (Some 35%Q) (Some (-97)%Q);
      sample_row (Some "KS") NaN (Some 2%Q) (Some 38%Q) (Some (-98)%Q);
      sample_row (Some "OK") (Some 3%Q) (Some 4%Q) (Some 36%Q) (Some (-96)%Q) ].

(** Two records, none with a capacity. *)
Definition no_capacity_df : DataFrame :=
  sample_frame
    [ sample_row (Some "OK") NaN (Some 1%Q) (Some 35%Q) (Some (-97)%Q);
      sample_row (Some "OK") NaN (Some 2%Q) (Some 36%Q) (Some (-96)%Q) ].

(** Two records of one state, the second without a capacity. *)
Definition half_missing_df : DataFrame :=
  sample_frame
    [ sample_row (Some "OK") (Some 3%Q) (Some 1%Q) (Some 35%Q) (Some (-97)%Q);
      sample_row (Some "OK") NaN (Some 2%Q) (Some 36%Q) (Some (-96)%Q) ].

(** Two records, the first without a state label. *)
Definition no_state_df : DataFrame :=
  sample_frame
    [ sample_row None (Some 1%Q) (Some 1%Q) (Some 35%Q) (Some (-97)%Q);
      sample_row (Some "OK") (Some 2%Q) (Some 2%Q) (Some 36%Q) (Some (-96)%Q) ].

(** Frames as [pd.read_csv] returns them, for the worked examples. *)
Definition raw_columns : list string :=
  ["Turbine_ID"; "Project_Name"; "Facility"; "State"; "Coordinates";
   "Installed_Capacity"; "Number_of_Units"].

Definition raw_row (state : option string) (coords : option string) (cap : cell)
  (units : float) : Row :=
  {| Turbine_ID := Some "T"; Project_Name := Some "P";
     Facility := Some "K-12 School"; State := state;
     Coordinates := coords;
     Installed_Capacity := cap;
     Number_of_Units := units;
     Latitude := NaN; Longitude := NaN |}.

Definition raw_frame (l : list Row) : DataFrame :=
  {| columns := raw_columns; rows := l |}.

(** One record with the coordinate text of the specification's example. *)
Definition forty_df : DataFrame :=
  raw_frame [ raw_row (Some "KS") (Some "40.0,-95.0") (Number (Some 1%Q)) (Some 1%Q) ].

(** Two records, the second with a single coordinate component. *)
Definition short_coordinate_df : DataFrame :=
  raw_frame
    [ raw_row (Some "KS") (Some "40.0,-95.0") (Number (Some 1%Q)) (Some 1%Q);
      raw_row (Some "OK") (Some "41.0") (Number (Some 2%Q)) (Some 2%Q) ].

(** A record whose coordinate text has three components. *)
Definition three_parts_df : DataFrame :=
  raw_frame
    [ raw_row (Some "KS") (Some "40.0,-95.0") (Number (Some 1%Q)) (Some 1%Q);
      raw_row (Some "OK") (Some "41.0,-96.0,7") (Number (Some 2%Q)) (Some 2%Q) ].

(** The records of [forty_df] under a header without a coordinate column. *)
Definition no_coordinates_df : DataFrame :=
  {| columns := ["Turbine_ID"; "Project_Name"; "Facility"; "State";
                 "Installed_Capacity"; "Number_of_Units"];
     rows := rows forty_df |}.

(** Two cleaned records, the second without a longitude. *)
Definition missing_longitude_df : DataFrame :=
  sample_frame
    [ sample_row (Some "KS") (Some 1%Q) (Some 1%Q) (Some 40%Q) (Some (-95)%Q);
      sample_row (Some "OK") (Some 2%Q) (Some 2%Q) (Some 41%Q) NaN ].

(** Four records on a line, the third with the capacity text ["N/A"]. *)
Definition na_capacity_df : DataFrame :=
  raw_frame
    [ raw_row (Some "KS") (Some "40.0,-95.0") (Text "1.0") (Some 1%Q);
      raw_row (Some "OK") (Some "41.0,-96.0") (Text "2.0") (Some 2%Q);
      raw_row (Some "OK") (Some "42.0,-97.0") (Text "N/A") (Some 3%Q);
      raw_row (Some "TX") (Some "43.0,-98.0") (Text "4.0") (Some 4%Q) ].

(** A single complete record. *)
Definition one_row_df : DataFrame :=
  sample_frame
    [ sample_row (Some "KS") (Some 1%Q) (Some 1%Q) (Some 40%Q) (Some (-95)%Q) ].

(** Three records of the same capacity. *)
Definition constant_capacity_df : DataFrame :=
  sample_frame
    [ sample_row (Some "KS") (Some 2%Q) (Some 1%Q) (Some 40%Q) (Some (-95)%Q);
      sample_row (Some "OK") (Some 2%Q) (Some 2%Q) (Some 41%Q) (Some (-96)%Q);
      sample_row (Some "TX") (Some 2%Q) (Some 3%Q) (Some 42%Q) (Some (-97)%Q) ].

(** * Extra definitions: the whole run *)

(** ** [main] *)

Section Pipeline.
Variable float_of_string : string -> option float.
Variable to_numeric_text : string -> option float.

(** The plotting stage [create_visualizations] only calls matplotlib and
    seaborn; what it draws, and whether it raises, is left to these
    libraries.  The figure is opaque and the stage is a parameter of the
    run. *)
Variable Figure : Type.
Variable create_visualizations : DataFrame -> result Figure.

(** The tuple that [main] returns. *)
Record Outputs : Type := mkOutputs {
  out_df : DataFrame;
  out_stats_summary : StatsSummary;
  out_fig : Figure;
  out_map_viz : Map;
  out_analysis_results : AnalysisResults;
  out_report : Report
}.

(** [main], from the frame that [pd.read_csv] returns for [filepath]. *)
Definition main (file : DataFrame) : result Outputs :=
  df <- load_and_clean_data float_of_string to_numeric_text file ;;
  stats_summary <- generate_statistical_summary df ;;
  fig <- create_visualizations df ;;
  map_viz <- create_map df ;;
  analysis_results <- perform_analysis df ;;
  let report := generate_report stats_summary analysis_results in
  Ok {| out_df := df; out_stats_summary := stats_summary; out_fig := fig;
        out_map_viz := map_viz; out_analysis_results := analysis_results;
        out_report := report |}.
End Pipeline.

Arguments mkOutputs {Figure} _ _ _ _ _ _.
Arguments out_df {Figure} _.
Arguments out_stats_summary {Figure} _.
Arguments out_fig {Figure} _.
Arguments out_map_viz {Figure} _.
Arguments out_analysis_results {Figure} _.
Arguments out_report {Figure} _.
Arguments main _ _ {Figure} _ _.

(** ** Vocabulary of the further properties *)

(** Two records that agree on every column that cleaning does not write. *)
Definition same_source_fields (r r' : Row) : Prop :=
  Turbine_ID r' = Turbine_ID r
  /\ Project_Name r' = Project_Name r
  /\ Facility r' = Facility r
  /\ State r' = State r
  /\ Coordinates r' = Coordinates r
  /\ Number_of_Units r' = Number_of_Units r.

(** Every component of every coordinate text is accepted by [float]. *)
Definition components_numeric (float_of_string : string -> option float)
  (df : DataFrame) : Prop :=
  forall r part, In r (rows df) ->
    In (Some part) (cell_parts "," (Coordinates r)) ->
    float_of_string part <> None.

(** Two well-formed example records in raw form. *)
Definition two_raw_df : DataFrame :=
  raw_frame
    [ raw_row (Some "KS") (Some "40.0,-95.0") (Text "1.5") (Some 1%Q);
      raw_row (Some "OK") (Some "41.0,-96.0") (Text "n/a") (Some 3%Q) ].

(** Three well-formed example records in raw form, none with a missing
    value. *)
Definition three_raw_df : DataFrame :=
  raw_frame
    [ raw_row (Some "KS") (Some "40.0,-95.0") (Text "1.5") (Some 1%Q);
      raw_row (Some "OK") (Some "41.0,-96.0") (Text "0.5") (Some 3%Q);
      raw_row (Some "TX") (Some "42.0,-97.0") (Number (Some 2%Q)) (Some 2%Q) ].

(** Two cleaned records of two states, the first without a capacity. *)
Definition two_states_df : DataFrame :=
  sample_frame
    [ sample_row (Some "OK") NaN (Some 1%Q) (Some 35%Q) (Some (-97)%Q);
      sample_row (Some "KS") (Some 3%Q) (Some 2%Q) (Some 38%Q) (Some (-98)%Q) ].

(** Number of records that carry a label in the column [field]. *)
Definition labelled (field : Row -> option string) (df : DataFrame) : nat :=
  length (filter (fun r => notna_label (field r)) (rows df)).

(** The ['sum'] column of the per-state table, as the report ranks it. *)
Definition state_sums (a : AnalysisResults) : list (string * float) :=
  map (fun g => (fst g, agg_sum (snd g))) (capacity_by_state a).

(** Group keys in strictly ascending order. *)
Definition keys_ascending (groups : list (string * Agg)) : Prop :=
  Sorted (fun g h => String.ltb (fst g) (fst h) = true) groups.

(** Dot product of two series of numbers. *)
Definition qdot (u v : list Q) : Q :=
  Qsum (map (fun p => (fst p * snd p)%Q) (combine u v)).

(** A record whose coordinate text is two numerals separated by one comma,
    both read as numbers. *)
Definition numeric_pair (float_of_string : string -> option float) (r : Row) : Prop :=
  exists (a b : string) (x y : Q),
    Coordinates r = Some (a ++ "," ++ b)%string
    /\ contains "," a = false /\ contains "," b = false
    /\ float_of_string a = Some (Some x)
    /\ float_of_string b = Some (Some y).

(** * Properties *)

(** ** The error monad and column access *)

Lemma bind_ok {A B : Type} (m : result A) (f : A -> result B) (b : B) :
  bind m f = Ok b -> exists a, m = Ok a /\ f a = Ok b.
Proof.
  destruct m as [a | e]; simpl; intros H.
  - exists a. split; [reflexivity | exact H].
  - discriminate.
Qed.

Ltac bind_inv H :=
  repeat match type of H with
         | bind _ _ = Ok _ =>
             let a := fresh "v" in
             let Ha := fresh "Hv" in
             apply bind_ok in H; destruct H as (a & Ha & H)
         end.

Lemma getitem_ok {A : Type} (df : DataFrame) (label : string) (field : Row -> A) l :
  getitem df label field = Ok l ->
  has_column df label = true /\ l = map field (rows df).
Proof.
  unfold getitem. destruct (has_column df label); [|discriminate].
  intros H. injection H as <-. split; reflexivity.
Qed.

Lemma getitem_present {A : Type} (df : DataFrame) (label : string) (field : Row -> A) :
  has_column df label = true -> getitem df label field = Ok (map field (rows df)).
Proof. unfold getitem. intros ->. reflexivity. Qed.

Lemma mapM_ok_map {A B : Type} (f : A -> result B) (g : A -> B) (l : list A) :
  (forall a, In a l -> f a = Ok (g a)) -> mapM f l = Ok (map g l).
Proof.
  induction l as [|a l IH]; simpl; intros H; [reflexivity|].
  rewrite (H a (or_introl eq_refl)). simpl.
  rewrite IH by (intros; apply H; right; assumption). reflexivity.
Qed.

Lemma mapM_err {A B : Type} (f : A -> result B) (l : list A) (a : A) :
  In a l -> aborted (f a) -> aborted (mapM f l).
Proof.
  induction l as [|b l IH]; simpl; [tauto|].
  intros [-> | Hin] Hab.
  - destruct Hab as [e ->]. exists e. reflexivity.
  - destruct (f b) as [vb | e]; simpl; [|exists e; reflexivity].
    destruct (IH Hin Hab) as [e ->]. exists e. reflexivity.
Qed.

Lemma numeric_ok (cells : list cell) (caps : list float) :
  numeric cells = Ok caps -> caps = map cell_float cells.
Proof.
  unfold numeric. revert caps. induction cells as [|c cells IH]; simpl; intros caps H.
  - injection H as <-. reflexivity.
  - bind_inv H. injection H as <-.
    destruct c; simpl in Hv; [discriminate|]. injection Hv as <-.
    simpl. f_equal. apply IH. assumption.
Qed.

Lemma numeric_capacity (df : DataFrame) (caps : list float) :
  numeric (map Installed_Capacity (rows df)) = Ok caps ->
  caps = map capacity (rows df).
Proof.
  intros H. apply numeric_ok in H. rewrite H, map_map. reflexivity.
Qed.

(** ** Skipping reductions *)

Lemma Series_sum_eq (l : list float) : Series_sum l = Some (sum_present l).
Proof. reflexivity. Qed.

Lemma sum_present_dropna (l : list float) : (sum_present l == Qsum (dropna l))%Q.
Proof.
  induction l as [|[q|] l IH]; simpl.
  - reflexivity.
  - rewrite IH. reflexivity.
  - rewrite IH. ring.
Qed.

Lemma sum_present_app (l1 l2 : list float) :
  (sum_present (l1 ++ l2) == sum_present l1 + sum_present l2)%Q.
Proof.
  induction l1 as [|x l1 IH]; simpl.
  - ring.
  - rewrite IH. ring.
Qed.

Lemma Series_count_dropna (l : list float) : Series_count l = length (dropna l).
Proof.
  unfold Series_count. induction l as [|[q|] l IH]; simpl; auto.
Qed.

Lemma dropna_app (l1 l2 : list float) : dropna (l1 ++ l2) = dropna l1 ++ dropna l2.
Proof.
  induction l1 as [|[q|] l1 IH]; simpl; auto. rewrite IH. reflexivity.
Qed.

Lemma dropna_length_le (l : list float) : length (dropna l) <= length l.
Proof. induction l as [|[q|] l IH]; simpl; lia. Qed.

Lemma dropna_length_lt (l : list float) :
  In NaN l -> length (dropna l) < length l.
Proof.
  induction l as [|[q|] l IH]; simpl.
  - tauto.
  - intros [H | H]; [discriminate|]. specialize (IH H). lia.
  - intros _. pose proof (dropna_length_le l). lia.
Qed.

Lemma Qof_nat_pos (n : nat) : 0 < n -> (0 < Qof_nat n)%Q.
Proof.
  intros H. unfold Qof_nat, Qlt. simpl. lia.
Qed.

Lemma Qof_nat_inj (n m : nat) : (Qof_nat n == Qof_nat m)%Q -> n = m.
Proof.
  unfold Qof_nat, Qeq. simpl. lia.
Qed.

(** ** What the aggregating stages return *)

Lemma summary_ok (df : DataFrame) (s : StatsSummary) :
  generate_statistical_summary df = Ok s ->
  s = {| total_projects := length (rows df);
         total_states := nunique (map State (rows df));
         total_capacity := Series_sum (capacities df);
         avg_capacity := Series_mean (capacities df);
         state_counts := value_counts (map State (rows df));
         facility_counts := value_counts (map Facility (rows df)) |}.
Proof.
  unfold generate_statistical_summary. intros H. bind_inv H.
  apply getitem_ok in Hv as [_ ->]. apply getitem_ok in Hv0 as [_ ->].
  apply getitem_ok in Hv2 as [_ ->]. apply numeric_capacity in Hv1 as ->.
  injection H as <-. reflexivity.
Qed.

Lemma analysis_ok (df : DataFrame) (a : AnalysisResults) :
  perform_analysis df = Ok a ->
  exists r,
    pearsonr (map Number_of_Units (rows df)) (capacities df) = Ok r
    /\ a = {| capacity_by_state := groupby_agg (map State (rows df)) (capacities df);
              capacity_by_facility := groupby_agg (map Facility (rows df)) (capacities df);
              capacity_units_correlation := r |}.
Proof.
  unfold perform_analysis. intros H. bind_inv H.
  apply getitem_ok in Hv as [_ ->]. apply getitem_ok in Hv0 as [_ ->].
  apply getitem_ok in Hv2 as [_ ->]. apply getitem_ok in Hv3 as [_ ->].
  apply numeric_capacity in Hv1 as ->.
  injection H as <-. exists v4. split; [assumption | reflexivity].
Qed.

(** A frame that carries the columns and whose capacity cells are floats. *)
Lemma numeric_all_numbers (cells : list cell) :
  (forall c, In c cells -> exists x, c = Number x) ->
  numeric cells = Ok (map cell_float cells).
Proof.
  intros H. apply mapM_ok_map. intros c Hc.
  destruct (H c Hc) as [x ->]. reflexivity.
Qed.

Lemma np_sum_present (l : list Q) : np_sum (map Some l) = Some (Qsum l).
Proof.
  unfold np_sum. induction l as [|q l IH]; simpl; [reflexivity|].
  rewrite IH. reflexivity.
Qed.

Lemma np_mean_present (l : list Q) :
  l <> [] -> np_mean (map Some l) = Some (Qsum l / Qof_nat (length l))%Q.
Proof.
  intros H. unfold np_mean. rewrite np_sum_present, length_map.
  destruct l; [contradiction | reflexivity].
Qed.

Lemma skips_missing_series (vals : list float) :
  skips_missing vals (Series_sum vals) (Series_mean vals).
Proof.
  unfold skips_missing, Series_mean.
  rewrite Series_sum_eq, Series_count_dropna, np_sum_present.
  split; [simpl; apply sum_present_dropna|].
  destruct (dropna vals) as [|q l] eqn:E.
  - simpl. split; [exact I | reflexivity].
  - split; [|discriminate]. rewrite np_mean_present by discriminate.
    simpl. rewrite sum_present_dropna, E. reflexivity.
Qed.

(** ** Sorting and distinct labels *)

Lemma insert_sorted_perm {A : Type} (before : A -> A -> bool) (x : A) (l : list A) :
  Permutation (insert_sorted before x l) (x :: l).
Proof.
  induction l as [|y l IH]; simpl.
  - apply Permutation_refl.
  - destruct (before x y).
    + apply Permutation_refl.
    + eapply Permutation_trans; [apply perm_skip, IH | apply perm_swap].
Qed.

Lemma sort_by_perm {A : Type} (before : A -> A -> bool) (l : list A) :
  Permutation (sort_by before l) l.
Proof.
  induction l as [|x l IH]; simpl.
  - apply perm_nil.
  - eapply Permutation_trans; [apply insert_sorted_perm | apply perm_skip, IH].
Qed.

Lemma sort_by_length {A : Type} (before : A -> A -> bool) (l : list A) :
  length (sort_by before l) = length l.
Proof. apply Permutation_length, sort_by_perm. Qed.

Lemma unique_In (l : list string) (x : string) : In x (unique l) <-> In x l.
Proof.
  induction l as [|y l IH]; simpl; [tauto|].
  rewrite filter_In, IH. destruct (String.eqb_spec x y) as [-> | Hne]; simpl.
  - split; auto.
  - split.
    + intros [H | [H _]]; auto.
    + intros [H | H]; [left; assumption | right; split; [assumption | reflexivity]].
Qed.

Lemma unique_NoDup (l : list string) : NoDup (unique l).
Proof.
  induction l as [|y l IH]; simpl; constructor.
  - rewrite filter_In. intros [_ H]. rewrite String.eqb_refl in H. discriminate.
  - apply NoDup_filter, IH.
Qed.

Lemma somes_In {A : Type} (l : list (option A)) (x : A) : In x (somes l) <-> In (Some x) l.
Proof.
  induction l as [|[a|] l IH]; simpl.
  - tauto.
  - rewrite IH. split; intros [H | H]; auto; left; congruence.
  - rewrite IH. split; [auto | intros [H | H]; [discriminate | assumption]].
Qed.

Lemma group_keys_In (keys : list (option string)) (k : string) :
  In k (group_keys keys) <-> In (Some k) keys.
Proof.
  unfold group_keys. rewrite <- somes_In, <- (unique_In (somes keys)).
  split; apply Permutation_in; [|apply Permutation_sym]; apply sort_by_perm.
Qed.

Lemma group_keys_NoDup (keys : list (option string)) : NoDup (group_keys keys).
Proof.
  unfold group_keys. eapply Permutation_NoDup.
  - apply Permutation_sym, sort_by_perm.
  - apply unique_NoDup.
Qed.

(** ** Grouped sums *)

Lemma is_label_true (k : string) (o : option string) : is_label k o = true <-> o = Some k.
Proof.
  destruct o as [s|]; simpl.
  - rewrite String.eqb_eq. split; congruence.
  - split; discriminate.
Qed.

Lemma has_group_true (K : list string) (o : option string) :
  has_group K o = true <-> exists k, In k K /\ o = Some k.
Proof.
  unfold has_group. rewrite existsb_exists.
  split; intros (k & Hk & H); exists k; split; auto; apply is_label_true; assumption.
Qed.

Lemma feq_trans (x y z : float) : x =f= y -> y =f= z -> x =f= z.
Proof.
  destruct x, y, z; simpl; auto; try contradiction.
  intros H1 H2. rewrite H1. exact H2.
Qed.

Lemma combine_filter_snd {A : Type} (f : A -> option string) (g : A -> float)
  (P : option string -> bool) (l : list A) :
  map snd (filter (fun kv => P (fst kv)) (combine (map f l) (map g l)))
  = map g (filter (fun r => P (f r)) l).
Proof.
  induction l as [|r l IH]; simpl; [reflexivity|].
  destruct (P (f r)); simpl; rewrite IH; reflexivity.
Qed.

Lemma group_values_rows (field : Row -> option string) (k : string) (df : DataFrame) :
  group_values k (combine (map field (rows df)) (capacities df))
  = group_capacities field k df.
Proof. apply (combine_filter_snd field capacity (is_label k)). Qed.

Lemma groupby_agg_members (field : Row -> option string) (df : DataFrame) :
  Forall (fun g => snd g = agg (group_capacities field (fst g) df))
         (groupby_agg (map field (rows df)) (capacities df)).
Proof.
  unfold groupby_agg. apply Forall_forall. intros g Hg.
  apply in_map_iff in Hg as (k & <- & _). simpl.
  rewrite group_values_rows. reflexivity.
Qed.

(** ** C5: the mean divides by the number of present values *)

(** C5.  In a table with at least one missing capacity the reported total
    is the sum of the capacities that are present, and the reported mean is
    that total divided by the number of records whose capacity is present
    (NaN when there is none, the quotient 0/0); that number is smaller than
    the record count reported next to it, and unless the total is zero the
    mean differs from the total divided by the record count. *)
Theorem C5_mean_over_present_values (df : DataFrame) (s : StatsSummary) :
  generate_statistical_summary df = Ok s ->
  In NaN (capacities df) ->
  exists t,
    total_capacity s = Some t
    /\ (t == Qsum (dropna (capacities df)))%Q
    /\ (present_count df = 0 -> avg_capacity s = NaN)
    /\ (0 < present_count df ->
        avg_capacity s =f= Some (t / Qof_nat (present_count df))%Q
        /\ avg_capacity s
           =f= Some (Qsum (dropna (capacities df)) / Qof_nat (present_count df))%Q)
    /\ total_projects s = length (rows df)
    /\ present_count df < total_projects s
    /\ (~ (t == 0)%Q ->
        ~ avg_capacity s =f= Some (t / Qof_nat (total_projects s))%Q).
Proof.
  intros Hs Hmiss. apply summary_ok in Hs. subst s. simpl.
  exists (sum_present (capacities df)).
  pose proof (dropna_length_lt _ Hmiss) as Hlt.
  unfold capacities in Hlt at 2. rewrite length_map in Hlt.
  unfold Series_mean. rewrite Series_sum_eq, Series_count_dropna.
  fold (present_count df) in *. simpl.
  split; [reflexivity|]. split; [apply sum_present_dropna|].
  split; [intros ->; reflexivity|].
  split; [|split; [reflexivity|split; [exact Hlt|]]].
  - intros Hpos. destruct (Nat.eqb_spec (present_count df) 0); [lia|].
    simpl. split; [reflexivity|]. rewrite sum_present_dropna. reflexivity.
  - intros Hne. destruct (Nat.eqb_spec (present_count df) 0) as [E | E].
    + simpl. exact (fun F => F).
    + simpl. intros Heq.
      assert (Hn : (0 < Qof_nat (present_count df))%Q) by (apply Qof_nat_pos; lia).
      assert (HN : (0 < Qof_nat (length (rows df)))%Q) by (apply Qof_nat_pos; lia).
      assert (E' : (Qof_nat (present_count df) == Qof_nat (length (rows df)))%Q).
      { apply (Qmult_inj_l _ _ (sum_present (capacities df))); [exact Hne|].
        assert (H1 : (sum_present (capacities df) * Qof_nat (length (rows df))
                      == sum_present (capacities df) / Qof_nat (present_count df)
                         * (Qof_nat (present_count df) * Qof_nat (length (rows df))))%Q)
          by (field; lra).
        rewrite Heq in H1. rewrite H1. field. lra. }
      apply Qof_nat_inj in E'. lia.
Qed.

(** On the three-record table with capacities 1, missing, 3: the total is
    4, two capacities are present among three records, the mean is 2. *)
Lemma C5_witness :
  exists s t,
    generate_statistical_summary one_missing_df = Ok s
    /\ In NaN (capacities one_missing_df)
    /\ total_capacity s = Some t
    /\ (t == 4)%Q
    /\ avg_capacity s =f= Some 2%Q
    /\ present_count one_missing_df = 2
    /\ total_projects s = 3.
Proof.
  destruct (generate_statistical_summary one_missing_df) as [s | e] eqn:Hs;
    [|discriminate Hs].
  assert (Hmiss : In NaN (capacities one_missing_df)) by (simpl; auto).
  destruct (C5_mean_over_present_values one_missing_df s Hs Hmiss)
    as (t & Ht & Hsum & _ & Hmean & Hn & _ & _).
  assert (Hpos : 0 < present_count one_missing_df) by (vm_compute; lia).
  destruct (Hmean Hpos) as [_ Hm].
  exists s, t. split; [reflexivity|]. split; [exact Hmiss|]. split; [exact Ht|].
  split; [rewrite Hsum; vm_compute; reflexivity|].
  split; [eapply feq_trans; [exact Hm | vm_compute; reflexivity]|].
  split; [reflexivity | exact Hn].
Defined.

(** ** C6: sums and means skip missing capacities *)

(** C6 as stated fails on a table without any capacity value: the overall
    mean and the mean of the only state group are NaN. *)
Lemma C6_counterexample :
  exists s a,
    generate_statistical_summary no_capacity_df = Ok s
    /\ perform_analysis no_capacity_df = Ok a
    /\ avg_capacity s = NaN
    /\ map (fun g => agg_mean (snd g)) (capacity_by_state a) = [NaN].
Proof.
  eexists. eexists. split; [reflexivity|]. split; [reflexivity|].
  split; reflexivity.
Qed.

(** C6 (amended).  Whenever the summary is produced, its total and its mean
    are the plain sum and the plain mean of the capacities that are present
    in the table, and in the two grouped tables that the analysis builds
    (per state and per facility type, before it computes the correlation)
    the sum and the mean of every group are the plain sum and mean of the
    capacities that are present in the group; these are the tables that the
    analysis returns when it returns.  A missing capacity next to present
    ones therefore never reaches an aggregate; the mean of a table, or of a
    group, in which no capacity is present is NaN. *)
Theorem C6_aggregates_skip_missing (df : DataFrame) :
  (forall s, generate_statistical_summary df = Ok s ->
     skips_missing (capacities df) (total_capacity s) (avg_capacity s)
     /\ Forall (fun g => skips_missing (group_capacities State (fst g) df)
                           (agg_sum (snd g)) (agg_mean (snd g)))
               (groupby_agg (map State (rows df)) (capacities df))
     /\ Forall (fun g => skips_missing (group_capacities Facility (fst g) df)
                           (agg_sum (snd g)) (agg_mean (snd g)))
               (groupby_agg (map Facility (rows df)) (capacities df)))
  /\ (forall a, perform_analysis df = Ok a ->
        capacity_by_state a = groupby_agg (map State (rows df)) (capacities df)
        /\ capacity_by_facility a
           = groupby_agg (map Facility (rows df)) (capacities df)
        /\ Forall (fun g => skips_missing (group_capacities State (fst g) df)
                              (agg_sum (snd g)) (agg_mean (snd g)))
                  (capacity_by_state a)
        /\ Forall (fun g => skips_missing (group_capacities Facility (fst g) df)
                              (agg_sum (snd g)) (agg_mean (snd g)))
                  (capacity_by_facility a)).
Proof.
  assert (Hgroups : forall field : Row -> option string,
            Forall (fun g => skips_missing (group_capacities field (fst g) df)
                               (agg_sum (snd g)) (agg_mean (snd g)))
                   (groupby_agg (map field (rows df)) (capacities df))).
  { intros field. eapply Forall_impl; [|apply (groupby_agg_members field df)].
    intros g ->. simpl. apply skips_missing_series. }
  split.
  - intros s Hs. apply summary_ok in Hs. subst s. simpl.
    split; [apply skips_missing_series|]. split; apply Hgroups.
  - intros a Ha. apply analysis_ok in Ha as (r & _ & ->). simpl.
    split; [reflexivity|]. split; [reflexivity|]. split; apply Hgroups.
Qed.

(** On the three-record table with capacities 1 (OK), missing (KS), 3 (OK)
    the summary has total 4 and mean 2, the group KS has sum 0 and mean NaN,
    the group OK sum 4 and mean 2; on the two-record table of one state with
    capacities 3 and missing the analysis returns a state group of sum 3 and
    mean 3. *)
Lemma C6_witness :
  (exists s,
     generate_statistical_summary one_missing_df = Ok s
     /\ skips_missing (capacities one_missing_df) (total_capacity s) (avg_capacity s)
     /\ total_capacity s =f= Some 4%Q
     /\ avg_capacity s =f= Some 2%Q
     /\ Forall2 (fun g x => fst g = fst x /\ agg_sum (snd g) =f= Some (fst (snd x))
                            /\ agg_mean (snd g) =f= snd (snd x))
                (groupby_agg (map State (rows one_missing_df)) (capacities one_missing_df))
                [("KS", (0%Q, NaN)); ("OK", (4%Q, Some 2%Q))])
  /\ (exists a,
        perform_analysis half_missing_df = Ok a
        /\ Forall (fun g => skips_missing (group_capacities State (fst g) half_missing_df)
                              (agg_sum (snd g)) (agg_mean (snd g)))
                  (capacity_by_state a)
        /\ Forall2 (fun g x => fst g = fst x /\ agg_sum (snd g) =f= Some (snd x)
                               /\ agg_mean (snd g) =f= Some (snd x))
                   (capacity_by_state a) [("OK", 3%Q)]).
Proof.
  split.
  - destruct (generate_statistical_summary one_missing_df) as [s | e] eqn:Hs;
      [|discriminate Hs].
    destruct (C6_aggregates_skip_missing one_missing_df) as [H _].
    destruct (H s Hs) as (H1 & _ & _).
    exists s. split; [reflexivity|]. split; [exact H1|].
    injection Hs as <-. split; [reflexivity|]. split; [reflexivity|].
    constructor; [|constructor; [|constructor]].
    + split; [reflexivity|]. split; [reflexivity | exact I].
    + split; [reflexivity|]. split; reflexivity.
  - destruct (perform_analysis half_missing_df) as [a | e] eqn:Ha;
      [|discriminate Ha].
    destruct (C6_aggregates_skip_missing half_missing_df) as [_ H].
    destruct (H a Ha) as (_ & _ & H1 & _).
    exists a. split; [reflexivity|]. split; [exact H1|].
    injection Ha as <-. constructor; [|constructor].
    split; [reflexivity|]. split; reflexivity.
Defined.

(** ** C7: group sums against the overall total *)

Lemma filter_disjoint_union {A : Type} (P Q : A -> bool) (l : list A) :
  (forall a, In a l -> P a = true -> Q a = false) ->
  Permutation (filter P l ++ filter Q l) (filter (fun a => P a || Q a) l).
Proof.
  induction l as [|a l IH]; simpl; intros H; [constructor|].
  assert (IH' : Permutation (filter P l ++ filter Q l) (filter (fun a => P a || Q a) l))
    by (apply IH; intros; apply H; auto).
  destruct (P a) eqn:EP; simpl.
  - rewrite (H a (or_introl eq_refl) EP). constructor. exact IH'.
  - destruct (Q a); [|exact IH'].
    apply Permutation_sym, Permutation_cons_app, Permutation_sym, IH'.
Qed.

(** The groups of the keys [K] split the records that carry one of them. *)
Lemma groups_partition {A : Type} (f : A -> option string) (K : list string)
  (l : list A) :
  NoDup K ->
  Permutation (flat_map (fun k => filter (fun r => is_label k (f r)) l) K)
              (filter (fun r => has_group K (f r)) l).
Proof.
  induction 1 as [|k K Hnotin Hnd IH]; simpl.
  - induction l as [|a l IHl]; simpl; [constructor | exact IHl].
  - eapply Permutation_trans; [apply Permutation_app_head, IH|].
    apply (filter_disjoint_union (fun r => is_label k (f r))
             (fun r => has_group K (f r))).
    intros a _ HP. apply is_label_true in HP.
    destruct (has_group K (f a)) eqn:E; [|reflexivity].
    apply has_group_true in E as (k' & Hin & E).
    exfalso. apply Hnotin. congruence.
Qed.

Lemma dropna_perm (l l' : list float) :
  Permutation l l' -> Permutation (dropna l) (dropna l').
Proof.
  induction 1 as [| x l l' _ IH | x y l | l l' l'' _ IH1 _ IH2].
  - constructor.
  - destruct x; simpl; [constructor|]; exact IH.
  - destruct x, y; simpl; try apply Permutation_refl. apply perm_swap.
  - eapply Permutation_trans; eassumption.
Qed.

(** The present capacities of the groups of a table, group after group,
    are a rearrangement of the present capacities of its labelled records. *)
Lemma group_capacities_partition (field : Row -> option string) (df : DataFrame) :
  Permutation
    (flat_map (fun g => dropna (group_capacities field (fst g) df))
              (groupby_agg (map field (rows df)) (capacities df)))
    (dropna (map capacity (filter (fun r => notna_label (field r)) (rows df)))).
Proof.
  unfold groupby_agg, group_capacities.
  set (K := group_keys (map field (rows df))).
  assert (E : flat_map (fun g : string * Agg =>
                dropna (map capacity (filter (fun r => is_label (fst g) (field r)) (rows df))))
                (map (fun k => (k, agg (group_values k
                        (combine (map field (rows df)) (capacities df))))) K)
              = dropna (map capacity
                  (flat_map (fun k => filter (fun r => is_label k (field r)) (rows df)) K))).
  { induction K as [|k K IH]; simpl; [reflexivity|].
    rewrite IH, map_app, dropna_app. reflexivity. }
  rewrite E. apply dropna_perm, Permutation_map.
  eapply Permutation_trans; [apply groups_partition, group_keys_NoDup|].
  assert (F : forall r, In r (rows df) ->
            has_group K (field r) = notna_label (field r)).
  { intros r Hr. destruct (field r) as [k|] eqn:Ek; simpl.
    - apply has_group_true. exists k. split; [|reflexivity].
      apply group_keys_In. rewrite <- Ek. apply in_map. exact Hr.
    - destruct (has_group K None) eqn:E'; [|reflexivity].
      apply has_group_true in E' as (k & _ & E'). discriminate. }
  rewrite (filter_ext_in _ _ _ F). apply Permutation_refl.
Qed.

(** C7 as stated fails when a record has no state label: it belongs to no
    group, yet its capacity is part of the total (group sums 2, total 3). *)
Lemma C7_counterexample :
  exists s a,
    generate_statistical_summary no_state_df = Ok s
    /\ perform_analysis no_state_df = Ok a
    /\ ~ sum_of_group_sums (capacity_by_state a) =f= total_capacity s.
Proof.
  eexists. eexists. split; [reflexivity|]. split; [reflexivity|].
  vm_compute. discriminate.
Qed.

(** C7 (amended).  For every cleaned table in which every record has a
    state label, the state groups split the capacities of the table: the
    present capacities of the groups, taken group after group, are a
    rearrangement of the present capacities of the whole table; every group
    sum is the sum of the present capacities of its group and the total
    capacity of the summary is the sum of the present capacities of the
    table.  The group sums and the total thus add the same numbers in a
    different order. *)
Theorem C7_group_sums_add_up (df : DataFrame) (s : StatsSummary)
  (a : AnalysisResults) :
  generate_statistical_summary df = Ok s ->
  perform_analysis df = Ok a ->
  (forall r, In r (rows df) -> State r <> None) ->
  Permutation
    (flat_map (fun g => dropna (group_capacities State (fst g) df))
              (capacity_by_state a))
    (dropna (capacities df))
  /\ Forall (fun g => agg_sum (snd g)
                      =f= np_sum (map Some (dropna (group_capacities State (fst g) df))))
            (capacity_by_state a)
  /\ total_capacity s =f= np_sum (map Some (dropna (capacities df))).
Proof.
  intros Hs Ha Hall. apply summary_ok in Hs. subst s.
  apply analysis_ok in Ha as (r & _ & ->). simpl.
  split; [|split].
  - assert (E : filter (fun r => notna_label (State r)) (rows df) = rows df).
    { apply forallb_filter_id. apply forallb_forall. intros x Hx.
      specialize (Hall x Hx). destruct (State x); [reflexivity | contradiction]. }
    pose proof (group_capacities_partition State df) as H. rewrite E in H. exact H.
  - eapply Forall_impl; [|apply (groupby_agg_members State df)].
    intros g ->. simpl. apply skips_missing_series.
  - apply skips_missing_series.
Qed.

(** On the literal table of [script.py]: five state groups holding the
    eight capacities of the table between them. *)
Lemma C7_witness :
  exists s a,
    generate_statistical_summary script_df = Ok s
    /\ perform_analysis script_df = Ok a
    /\ (forall r, In r (rows script_df) -> State r <> None)
    /\ map fst (capacity_by_state a) = ["IA"; "KS"; "NY"; "OK"; "TX"]
    /\ length (flat_map (fun g => dropna (group_capacities State (fst g) script_df))
                        (capacity_by_state a)) = 8
    /\ Permutation
         (flat_map (fun g => dropna (group_capacities State (fst g) script_df))
                   (capacity_by_state a))
         (dropna (capacities script_df)).
Proof.
  destruct (generate_statistical_summary script_df) as [s | e] eqn:Hs;
    [|discriminate Hs].
  destruct (perform_analysis script_df) as [a | e] eqn:Ha;
    [|discriminate Ha].
  assert (Hall : forall r, In r (rows script_df) -> State r <> None).
  { simpl. intros r H.
    repeat (destruct H as [<- | H]; [discriminate|]). contradiction. }
  destruct (C7_group_sums_add_up script_df s a Hs Ha Hall) as (Hperm & _ & _).
  exists s, a. split; [reflexivity|]. split; [reflexivity|].
  split; [exact Hall|]. split; [|split; [|exact Hperm]].
  - injection Ha as <-. reflexivity.
  - injection Ha as <-. reflexivity.
Defined.

(** ** C10: the top-3 listings of the report *)

Section SortBySorted.
Context {A : Type}.
Variable before : A -> A -> bool.
Hypothesis before_total : forall x y, before x y = false -> before y x = true.
Hypothesis before_trans :
  forall x y z, before x y = true -> before y z = true -> before x z = true.

Let R (x y : A) : Prop := before x y = true.

Lemma insert_sorted_sorted (x : A) (l : list A) :
  Sorted R l -> Sorted R (insert_sorted before x l).
Proof.
  induction l as [|y l IH]; simpl; intros Hl.
  - repeat constructor.
  - destruct (before x y) eqn:E.
    + constructor; [assumption | constructor; exact E].
    + inversion Hl as [|? ? Hl' Hhd]; subst.
      constructor; [apply IH; assumption|].
      destruct l as [|z l]; simpl.
      * constructor. apply before_total. exact E.
      * destruct (before x z).
        -- constructor. apply before_total. exact E.
        -- inversion Hhd; subst. constructor. assumption.
Qed.

Lemma sort_by_sorted (l : list A) : StronglySorted R (sort_by before l).
Proof.
  apply Sorted_StronglySorted.
  - intros x y z. apply before_trans.
  - induction l as [|x l IH]; simpl; [constructor|].
    apply insert_sorted_sorted. exact IH.
Qed.
End SortBySorted.

Lemma StronglySorted_firstn {A : Type} (R : A -> A -> Prop) (n : nat) (l : list A) :
  StronglySorted R l -> StronglySorted R (firstn n l).
Proof.
  intros H. revert n. induction H as [|x l Hl IH Hx]; intros [|n]; simpl;
    try constructor.
  - apply IH.
  - apply Forall_forall. intros y Hy.
    rewrite Forall_forall in Hx. apply Hx.
    rewrite <- (firstn_skipn n l). apply in_or_app. left. exact Hy.
Qed.

Lemma StronglySorted_impl {A : Type} (R R' : A -> A -> Prop) (l : list A) :
  (forall x y, In x l -> In y l -> R x y -> R' x y) ->
  StronglySorted R l -> StronglySorted R' l.
Proof.
  intros Himp H. induction H as [|x l Hl IH Hx]; constructor.
  - apply IH. intros; apply Himp; simpl; auto.
  - rewrite Forall_forall in *. intros y Hy.
    apply Himp; simpl; auto.
Qed.

Lemma value_counts_sorted (l : list (option string)) :
  StronglySorted count_desc (value_counts l).
Proof.
  unfold value_counts.
  eapply StronglySorted_impl;
    [|apply (sort_by_sorted (fun a b : string * nat => Nat.leb (snd b) (snd a)))].
  - intros x y _ _ H. apply Nat.leb_le in H. exact H.
  - intros x y H. apply Nat.leb_gt in H. apply Nat.leb_le. lia.
  - intros x y z H1 H2. apply Nat.leb_le in H1, H2. apply Nat.leb_le. lia.
Qed.

Lemma value_counts_length (l : list (option string)) :
  length (value_counts l) = nunique l.
Proof.
  unfold value_counts, nunique. rewrite sort_by_length, length_map. reflexivity.
Qed.

Lemma float_geb_total (x y : float) : float_geb x y = false -> float_geb y x = true.
Proof.
  destruct x as [a|], y as [b|]; simpl; try discriminate; try reflexivity.
  intros H. apply Qle_bool_iff.
  destruct (Qlt_le_dec a b) as [Hlt | Hle].
  - apply Qlt_le_weak. exact Hlt.
  - apply Qle_bool_iff in Hle. congruence.
Qed.

Lemma float_geb_trans (x y z : float) :
  float_geb x y = true -> float_geb y z = true -> float_geb x z = true.
Proof.
  destruct x as [a|], y as [b|], z as [c|]; simpl; try discriminate; try reflexivity.
  rewrite !Qle_bool_iff. intros H1 H2. eapply Qle_trans; eassumption.
Qed.

Lemma sort_values_desc_sorted (l : list (string * float)) :
  Forall (fun e => snd e <> NaN) l ->
  StronglySorted sum_desc (sort_values_desc l).
Proof.
  intros Hnum. unfold sort_values_desc.
  eapply StronglySorted_impl;
    [|apply (sort_by_sorted (fun a b : string * float => float_geb (snd a) (snd b)))].
  - intros x y Hx Hy H. unfold sum_desc.
    assert (Hin : forall e, In e (sort_by (fun a b : string * float =>
                     float_geb (snd a) (snd b)) l) -> snd e <> NaN).
    { intros e He. rewrite Forall_forall in Hnum. apply Hnum.
      eapply Permutation_in; [apply sort_by_perm | exact He]. }
    specialize (Hin x Hx) as Hx'. specialize (Hin y Hy) as Hy'.
    cbv beta in H.
    destruct (snd x) as [a|], (snd y) as [b|]; try contradiction;
      try (exfalso; apply Hx'; reflexivity); try (exfalso; apply Hy'; reflexivity).
    apply Qle_bool_iff. exact H.
  - intros x y. apply float_geb_total.
  - intros x y z. apply float_geb_trans.
Qed.

Lemma Forall_firstn {A : Type} (P : A -> Prop) (n : nat) (l : list A) :
  Forall P l -> Forall P (firstn n l).
Proof.
  intros H. revert n. induction H as [|x l Hx Hl IH]; intros [|n]; simpl;
    constructor; auto.
Qed.

Lemma value_counts_entries (l : list (option string)) :
  Forall (fun e => In (Some (fst e)) l /\ snd e = occurrences (fst e) l)
         (value_counts l).
Proof.
  apply Forall_forall. intros e He. unfold value_counts in He.
  eapply Permutation_in in He; [|apply sort_by_perm].
  apply in_map_iff in He as (k & <- & Hk). simpl.
  apply unique_In, somes_In in Hk. split; [exact Hk | reflexivity].
Qed.

(** Every row of the ranking by total capacity is a state of the table
    with the sum of the capacities present in its group. *)
Lemma capacity_ranking_entries (df : DataFrame) :
  Forall (fun e => In (Some (fst e)) (map State (rows df))
                   /\ snd e =f= np_sum (map Some (dropna (group_capacities State (fst e) df))))
         (sort_values_desc
            (map (fun g => (fst g, agg_sum (snd g)))
                 (groupby_agg (map State (rows df)) (capacities df)))).
Proof.
  apply Forall_forall. intros e He. unfold sort_values_desc in He.
  eapply Permutation_in in He; [|apply sort_by_perm].
  apply in_map_iff in He as (g & <- & Hg). simpl.
  pose proof (groupby_agg_members State df) as Hm.
  rewrite Forall_forall in Hm. rewrite (Hm g Hg). simpl.
  split; [|apply skips_missing_series].
  unfold groupby_agg in Hg. apply in_map_iff in Hg as (k & <- & Hk). simpl.
  apply group_keys_In. exact Hk.
Qed.

(** C10.  Each of the three listings of the report is in descending order
    of its key (number of installations, number of installations, total
    capacity) and has [min 3 n] entries, [n] being the number of distinct
    states, facility types and states respectively.  Every row of a listing
    by count is a label of the table with the number of records that carry
    it; every row of the listing by capacity is a state of the table with
    the sum of the capacities present in its records. *)
Theorem C10_top3_sorted_and_short (df : DataFrame) (s : StatsSummary)
  (a : AnalysisResults) :
  generate_statistical_summary df = Ok s ->
  perform_analysis df = Ok a ->
  let report := generate_report s a in
  (StronglySorted count_desc (report_top_states report)
   /\ length (report_top_states report) = Nat.min 3 (nunique (map State (rows df)))
   /\ Forall (fun e => In (Some (fst e)) (map State (rows df))
                       /\ snd e = occurrences (fst e) (map State (rows df)))
             (report_top_states report))
  /\ (StronglySorted count_desc (report_top_facilities report)
      /\ length (report_top_facilities report)
         = Nat.min 3 (nunique (map Facility (rows df)))
      /\ Forall (fun e => In (Some (fst e)) (map Facility (rows df))
                          /\ snd e = occurrences (fst e) (map Facility (rows df)))
                (report_top_facilities report))
  /\ (StronglySorted sum_desc (report_top_capacity_states report)
      /\ length (report_top_capacity_states report)
         = Nat.min 3 (nunique (map State (rows df)))
      /\ Forall (fun e => In (Some (fst e)) (map State (rows df))
                          /\ snd e =f= np_sum (map Some
                                         (dropna (group_capacities State (fst e) df))))
                (report_top_capacity_states report)).
Proof.
  intros Hs Ha. apply summary_ok in Hs. subst s.
  apply analysis_ok in Ha as (r & _ & ->).
  unfold generate_report, head.
  cbn [report_top_states report_top_facilities report_top_capacity_states
       state_counts facility_counts capacity_by_state].
  split; [|split]; (split; [|split]).
  - apply StronglySorted_firstn, value_counts_sorted.
  - rewrite length_firstn, value_counts_length. reflexivity.
  - apply Forall_firstn, value_counts_entries.
  - apply StronglySorted_firstn, value_counts_sorted.
  - rewrite length_firstn, value_counts_length. reflexivity.
  - apply Forall_firstn, value_counts_entries.
  - apply StronglySorted_firstn, sort_values_desc_sorted.
    apply Forall_forall. intros e He. apply in_map_iff in He as (g & <- & Hg).
    pose proof (groupby_agg_members State df) as Hm.
    rewrite Forall_forall in Hm. rewrite (Hm g Hg). simpl. discriminate.
  - rewrite length_firstn. unfold sort_values_desc.
    rewrite sort_by_length, length_map. unfold groupby_agg, group_keys.
    rewrite length_map, sort_by_length. reflexivity.
  - apply Forall_firstn, capacity_ranking_entries.
Qed.

(** On the literal table of [script.py]: three states with two
    installations each, three facility types with three, three and two
    installations, then the three largest state totals, 3.256165 (OK),
    1.855864 (KS) and 1.720991 (IA). *)
Lemma C10_witness :
  exists s a,
    generate_statistical_summary script_df = Ok s
    /\ perform_analysis script_df = Ok a
    /\ report_top_states (generate_report s a) = [("OK", 2); ("KS", 2); ("IA", 2)]
    /\ report_top_facilities (generate_report s a)
       = [("Community Center", 3); ("K-12 School", 3); ("Technical College", 2)]
    /\ Forall2 (fun e x => fst e = fst x /\ snd e =f= Some (snd x))
               (report_top_capacity_states (generate_report s a))
               [("OK", 3256165 # 1000000); ("KS", 1855864 # 1000000);
                ("IA", 1720991 # 1000000)]%Q
    /\ StronglySorted sum_desc (report_top_capacity_states (generate_report s a))
    /\ Forall (fun e => snd e = occurrences (fst e) (map State (rows script_df)))
              (report_top_states (generate_report s a)).
Proof.
  destruct (generate_statistical_summary script_df) as [s | e] eqn:Hs;
    [|discriminate Hs].
  destruct (perform_analysis script_df) as [a | e] eqn:Ha;
    [|discriminate Ha].
  destruct (C10_top3_sorted_and_short script_df s a Hs Ha)
    as ((_ & _ & H1) & _ & H3 & _ & _).
  exists s, a. split; [reflexivity|]. split; [reflexivity|].
  assert (Hcount : Forall (fun e => snd e = occurrences (fst e) (map State (rows script_df)))
                     (report_top_states (generate_report s a))).
  { eapply Forall_impl; [|exact H1]. intros e [_ He]. exact He. }
  injection Hs as <-. injection Ha as <-.
  split; [reflexivity|]. split; [reflexivity|].
  split; [|split; [exact H3 | exact Hcount]].
  repeat (constructor; [split; [reflexivity | vm_compute; reflexivity]|]).
  constructor.
Defined.

(** ** C4: the literal table of [script.py] *)

(** C4 as stated fails on the total: the eight capacities of the script add
    up to 9.194434, which neither prints as 9.22 nor is within half a
    hundredth of it. *)
Lemma C4_counterexample :
  ~ (exists s,
       analyze_wind_data script_df = Ok s
       /\ Total_Projects s = 8
       /\ States_Count s = 5
       /\ (approx_2dp (Total_Capacity s) (922 # 100)
           \/ format_2f (Total_Capacity s) = "9.22")
       /\ approx_2dp (Average_Capacity s) (115 # 100)).
Proof.
  intros (s & Hs & _ & _ & Htotal & _).
  vm_compute in Hs. injection Hs as <-.
  destruct Htotal as [H | H].
  - vm_compute in H. apply H. reflexivity.
  - vm_compute in H. discriminate H.
Qed.

(** C4 (amended).  For the eight-record table of the script the summary
    has total count 8, 5 distinct states, total capacity 9.194434 (printed
    9.19) and average capacity 1.14930425 (printed 1.15). *)
Theorem C4_script_summary :
  exists s,
    analyze_wind_data script_df = Ok s
    /\ Total_Projects s = 8
    /\ States_Count s = 5
    /\ Total_Capacity s =f= Some (9194434 # 1000000)
    /\ format_2f (Total_Capacity s) = "9.19"
    /\ approx_2dp (Total_Capacity s) (919 # 100)
    /\ Average_Capacity s =f= Some (114930425 # 100000000)
    /\ format_2f (Average_Capacity s) = "1.15"
    /\ approx_2dp (Average_Capacity s) (115 # 100).
Proof.
  eexists. split; [reflexivity|].
  repeat split; try reflexivity; vm_compute; discriminate.
Qed.

(** ** Cleaning: what [load_and_clean_data] returns *)

Lemma mapM_ok_fun {A B : Type} (f : A -> result B) (g : A -> B) (l : list A) l' :
  (forall a b, In a l -> f a = Ok b -> b = g a) ->
  mapM f l = Ok l' -> l' = map g l.
Proof.
  revert l'. induction l as [|a l IH]; simpl; intros l' Hfg H.
  - injection H as <-. reflexivity.
  - bind_inv H. injection H as <-. f_equal.
    + apply Hfg; auto.
    + apply IH; [|assumption]. intros; eapply Hfg; eauto.
Qed.

Lemma mapM_map {A B C : Type} (f : B -> result C) (h : A -> B) (l : list A) :
  mapM f (map h l) = mapM (fun a => f (h a)) l.
Proof.
  induction l as [|a l IH]; simpl; [reflexivity|]. rewrite IH. reflexivity.
Qed.

Lemma mapM_total {A B : Type} (f : A -> result B) (l : list A) :
  (forall a, In a l -> exists b, f a = Ok b) -> exists l', mapM f l = Ok l'.
Proof.
  induction l as [|a l IH]; simpl; intros H.
  - exists []. reflexivity.
  - destruct (H a (or_introl eq_refl)) as [b ->].
    destruct IH as [l' ->]; [intros; apply H; right; assumption|].
    exists (b :: l'). reflexivity.
Qed.

Lemma combine_map_self {A B : Type} (g : A -> B) (l : list A) :
  combine l (map g l) = map (fun a => (a, g a)) l.
Proof.
  induction l as [|a l IH]; simpl; [reflexivity|]. rewrite IH. reflexivity.
Qed.

Lemma combine_map_both {A B C : Type} (f : A -> B) (g : A -> C) (l : list A) :
  combine (map f l) (map g l) = map (fun a => (f a, g a)) l.
Proof.
  induction l as [|a l IH]; simpl; [reflexivity|]. rewrite IH. reflexivity.
Qed.

Lemma max_width_bound (l : list nat) (n : nat) :
  In n l -> n <= fold_right Nat.max 0 l.
Proof.
  induction l as [|m l IH]; simpl; [tauto|].
  intros [-> | H]; [lia|]. specialize (IH H). lia.
Qed.

Lemma components_le_width (df : DataFrame) (r : Row) :
  In r (rows df) -> components r <= split_width df.
Proof.
  intros H. apply max_width_bound. apply in_map. exact H.
Qed.

Lemma split_width_small (df : DataFrame) (n : nat) :
  (forall r, In r (rows df) -> components r < S n) -> split_width df < S n.
Proof.
  unfold split_width. induction (rows df) as [|r l IH]; simpl; intros H; [lia|].
  assert (components r < S n) by (apply H; auto).
  assert (fold_right Nat.max 0 (map components l) < S n) by (apply IH; auto).
  lia.
Qed.

Lemma has_column_add (label l : string) (cols : list string) :
  existsb (String.eqb label) cols = true ->
  existsb (String.eqb label) (add_column l cols) = true.
Proof.
  intros H. unfold add_column. destruct (existsb (String.eqb l) cols); [exact H|].
  rewrite existsb_app, H. reflexivity.
Qed.

Lemma add_column_has (l : string) (cols : list string) :
  existsb (String.eqb l) (add_column l cols) = true.
Proof.
  unfold add_column. destruct (existsb (String.eqb l) cols) eqn:E; [exact E|].
  rewrite existsb_app. simpl. rewrite String.eqb_refl. apply orb_true_r.
Qed.

Section CleaningFacts.
Variable float_of_string : string -> option float.
Variable to_numeric_text : string -> option float.

Let clean := load_and_clean_data float_of_string to_numeric_text.
Let cleaned := clean_row float_of_string to_numeric_text.

Lemma astype_float_ok (c : option string) (x : float) :
  astype_float float_of_string c = Ok x -> x = float_of_cell float_of_string c.
Proof.
  destruct c as [s|]; simpl.
  - destruct (float_of_string s); [|discriminate]. intros H. injection H as <-. reflexivity.
  - intros H. injection H as <-. reflexivity.
Qed.

Lemma as_pair_latlon (r : Row) (ll : float * float) :
  as_pair (map (float_of_cell float_of_string) (pad 2 (cell_parts "," (Coordinates r))))
  = Ok ll ->
  ll = row_latlon float_of_string r.
Proof.
  unfold row_latlon.
  destruct (pad 2 (cell_parts "," (Coordinates r))) as [|p0 [|p1 [|p2 p]]]; simpl;
    try discriminate.
  intros H. injection H as <-. reflexivity.
Qed.

(** The frame handed to the later stages, when cleaning succeeds. *)
Lemma clean_ok (df df' : DataFrame) :
  clean df = Ok df' ->
  has_column df "Coordinates" = true
  /\ split_width df = 2
  /\ (forall r part, In r (rows df) -> In (Some part) (cell_parts "," (Coordinates r)) ->
      float_of_string part <> None)
  /\ rows df' = map cleaned (rows df)
  /\ columns df' = add_column "Longitude" (add_column "Latitude" (columns df))
  /\ has_column df' "Installed_Capacity" = true.
Proof.
  unfold clean, load_and_clean_data. intros H.
  apply bind_ok in H as (coords & Hc & H).
  apply getitem_ok in Hc as [Hcol ->].
  unfold str_split_expand in H. cbv zeta beta iota in H.
  rewrite !map_map in H.
  fold components in H. fold (split_width df) in H.
  apply bind_ok in H as (floats & Hf & H).
  apply bind_ok in H as (latlon & Hl & H).
  apply bind_ok in H as (caps & Hcap & H).
  unfold setitem_pair in Hl.
  destruct (Nat.eqb_spec (split_width df) 2) as [Hw | Hw]; [|discriminate].
  rewrite Hw in Hf.
  assert (Hparse : forall r part, In r (rows df) ->
            In (Some part) (cell_parts "," (Coordinates r)) ->
            float_of_string part <> None).
  { intros r part Hr Hp. rewrite mapM_map in Hf.
    clear - Hf Hr Hp. revert floats Hf.
    induction (rows df) as [|r0 l IH]; [contradiction|]. simpl. intros floats Hf.
    bind_inv Hf. destruct Hr as [-> | Hr]; [|eapply IH; eassumption].
    clear - Hv Hp. unfold pad in Hv.
    assert (Hin : In (Some part)
              (cell_parts "," (Coordinates r)
               ++ repeat None (2 - length (cell_parts "," (Coordinates r)))))
      by (apply in_or_app; left; exact Hp).
    revert v Hv Hin.
    generalize (cell_parts "," (Coordinates r)
                ++ repeat None (2 - length (cell_parts "," (Coordinates r)))).
    induction l as [|c l IH]; [contradiction|]. simpl. intros v Hv Hin.
    bind_inv Hv. destruct Hin as [-> | Hin]; [|eapply IH; eassumption].
    simpl in Hv0. destruct (float_of_string part); [discriminate | discriminate]. }
  rewrite mapM_map in Hf.
  apply (mapM_ok_fun _ (fun r => map (float_of_cell float_of_string)
                                   (pad 2 (cell_parts "," (Coordinates r))))) in Hf.
  2:{ intros r fl _ Hr. apply (mapM_ok_fun _ (float_of_cell float_of_string)) in Hr;
        [exact Hr|]. intros c x _. apply astype_float_ok. }
  subst floats. rewrite mapM_map in Hl.
  apply (mapM_ok_fun _ (row_latlon float_of_string)) in Hl.
  2:{ intros r ll _. apply as_pair_latlon. }
  subst latlon. rewrite combine_map_self, map_map in Hcap. simpl in Hcap.
  apply getitem_ok in Hcap as [Hcapcol ->]. simpl in H.
  rewrite combine_map_self, !map_map in H. simpl in H.
  injection H as <-. simpl.
  repeat split; try assumption.
  rewrite combine_map_both, map_map. reflexivity.
Qed.
End CleaningFacts.

Lemma pad_length (w : nat) (l : list (option string)) :
  length l <= w -> length (pad w l) = w.
Proof. intros H. unfold pad. rewrite length_app, repeat_length. lia. Qed.

Section CleaningTotal.
Variable float_of_string : string -> option float.
Variable to_numeric_text : string -> option float.

Let clean := load_and_clean_data float_of_string to_numeric_text.

(** Cleaning succeeds on a frame of width two whose components are all
    numerals. *)
Lemma clean_succeeds (df : DataFrame) :
  has_column df "Coordinates" = true ->
  has_column df "Installed_Capacity" = true ->
  split_width df = 2 ->
  (forall r part, In r (rows df) -> In (Some part) (cell_parts "," (Coordinates r)) ->
   float_of_string part <> None) ->
  exists df', clean df = Ok df'.
Proof.
  intros Hc Hcap Hw Hparse.
  unfold clean, load_and_clean_data.
  rewrite (getitem_present _ _ _ Hc). simpl.
  unfold str_split_expand. cbv zeta beta iota. rewrite !map_map.
  fold components. fold (split_width df). rewrite Hw.
  destruct (mapM_total (mapM (astype_float float_of_string))
              (map (fun r => pad 2 (cell_parts "," (Coordinates r))) (rows df)))
    as [floats Hf].
  { intros p Hp. apply in_map_iff in Hp as (r & <- & Hr).
    apply mapM_total. intros c Hc'. unfold pad in Hc'.
    apply in_app_or in Hc' as [Hc' | Hc'].
    - destruct c as [part|]; simpl; [|eexists; reflexivity].
      specialize (Hparse r part Hr Hc').
      destruct (float_of_string part); [eexists; reflexivity | contradiction].
    - apply repeat_spec in Hc'. subst c. eexists. reflexivity. }
  rewrite Hf. simpl. unfold setitem_pair. simpl.
  destruct (mapM_total as_pair floats) as [latlon Hl].
  { intros fl Hfl. rewrite mapM_map in Hf.
    apply (mapM_ok_fun _ (fun r => map (float_of_cell float_of_string)
                                     (pad 2 (cell_parts "," (Coordinates r))))) in Hf.
    2:{ intros r fl' _ Hr.
        apply (mapM_ok_fun _ (float_of_cell float_of_string)) in Hr; [exact Hr|].
        intros c x _. apply astype_float_ok. }
    subst floats. apply in_map_iff in Hfl as (r & <- & Hr).
    pose proof (components_le_width df r Hr) as Hle. rewrite Hw in Hle.
    pose proof (pad_length 2 _ Hle) as Hlen.
    destruct (pad 2 (cell_parts "," (Coordinates r))) as [|p0 [|p1 [|p2 p]]];
      simpl in Hlen; try discriminate. simpl. eexists. reflexivity. }
  rewrite Hl. simpl. unfold getitem, has_column. simpl columns.
  rewrite has_column_add by (apply has_column_add; exact Hcap).
  simpl. eexists. reflexivity.
Qed.
End CleaningTotal.

(** ** C8: structural failures of the coordinate column *)

(** C8 as stated fails when a record with a single component shares the
    table with a record that has two: [expand=True] pads the short record
    with a missing cell, the run goes on and the record gets a NaN
    longitude. *)
Lemma C8_counterexample :
  exists r df' r',
    nth_error (rows short_coordinate_df) 1 = Some r
    /\ components r <> 2
    /\ load_and_clean_data read_decimal read_decimal short_coordinate_df = Ok df'
    /\ nth_error (rows df') 1 = Some r'
    /\ Latitude r' =f= Some 41%Q
    /\ Longitude r' = NaN.
Proof.
  eexists. eexists. eexists. split; [reflexivity|]. split; [vm_compute; discriminate|].
  split; [vm_compute; reflexivity|]. split; [reflexivity|]. split; reflexivity.
Qed.

(** C8 (amended).  Cleaning aborts, and returns no frame, when the
    coordinate column is absent, when some record's coordinate text has
    more than two components, when no record has two components, or when a
    component is not a numeral.  (A record with fewer than two components
    next to a record with two does not abort the run.) *)
Theorem C8_structural_failure_aborts
  (float_of_string to_numeric_text : string -> option float) (df : DataFrame) :
  has_column df "Coordinates" = false
  \/ (exists r, In r (rows df) /\ 2 < components r)
  \/ (forall r, In r (rows df) -> components r < 2)
  \/ (exists r part, In r (rows df)
        /\ In (Some part) (cell_parts "," (Coordinates r))
        /\ float_of_string part = None) ->
  aborted (load_and_clean_data float_of_string to_numeric_text df).
Proof.
  intros H.
  destruct (load_and_clean_data float_of_string to_numeric_text df) as [df' | e] eqn:E;
    [exfalso | exists e; reflexivity].
  apply clean_ok in E as (Hcol & Hw & Hparse & _).
  destruct H as [H | [(r & Hr & H) | [H | (r & part & Hr & Hp & H)]]].
  - congruence.
  - pose proof (components_le_width df r Hr). lia.
  - pose proof (split_width_small df 1 H). lia.
  - exact (Hparse r part Hr Hp H).
Qed.

(** A third component, and a header without the coordinate column. *)
Lemma C8_witness :
  aborted (load_and_clean_data read_decimal read_decimal three_parts_df)
  /\ aborted (load_and_clean_data read_decimal read_decimal no_coordinates_df).
Proof.
  split; apply C8_structural_failure_aborts.
  - right; left.
    exists (raw_row (Some "OK") (Some "41.0,-96.0,7") (Number (Some 2%Q)) (Some 2%Q)).
    split; [simpl; auto | vm_compute; lia].
  - left. reflexivity.
Defined.

(** ** C9: splitting a well-formed coordinate text *)

Lemma split_no_sep (sep : ascii) (a : string) :
  contains sep a = false -> split sep a = [a].
Proof.
  induction a as [|c a IH]; simpl; [reflexivity|].
  destruct (Ascii.eqb c sep); simpl; [discriminate|].
  intros H. rewrite (IH H). reflexivity.
Qed.

Lemma split_app (sep : ascii) (a b : string) :
  contains sep a = false ->
  split sep (a ++ String sep b)%string = a :: split sep b.
Proof.
  induction a as [|c a IH]; simpl.
  - intros _. rewrite Ascii.eqb_refl. reflexivity.
  - destruct (Ascii.eqb c sep); simpl; [discriminate|].
    intros H. rewrite (IH H). reflexivity.
Qed.

Lemma split_pair (a b : string) :
  contains "," a = false -> contains "," b = false ->
  split "," (a ++ "," ++ b)%string = [a; b].
Proof.
  intros Ha Hb. simpl. rewrite (split_app _ _ _ Ha), (split_no_sep _ _ Hb). reflexivity.
Qed.

(** C9.  Whenever cleaning returns a frame, the frame has a latitude and a
    longitude column, and a record whose coordinate text is [a,b], with no
    further comma, gets as latitude the number that [a] denotes and as
    longitude the number that [b] denotes; and cleaning does return a frame
    when the table is not empty and every record has such a text with two
    numerals. *)
Theorem C9_coordinates_split_exactly
  (float_of_string to_numeric_text : string -> option float) (df : DataFrame) :
  (forall df',
     load_and_clean_data float_of_string to_numeric_text df = Ok df' ->
     has_column df' "Latitude" = true
     /\ has_column df' "Longitude" = true
     /\ length (rows df') = length (rows df)
     /\ forall i r (a b : string),
          nth_error (rows df) i = Some r ->
          Coordinates r = Some (a ++ "," ++ b)%string ->
          contains "," a = false -> contains "," b = false ->
          exists r',
            nth_error (rows df') i = Some r'
            /\ float_of_string a = Some (Latitude r')
            /\ float_of_string b = Some (Longitude r'))
  /\ (has_column df "Coordinates" = true ->
      has_column df "Installed_Capacity" = true ->
      rows df <> [] ->
      (forall r, In r (rows df) ->
         exists a b : string, Coordinates r = Some (a ++ "," ++ b)%string
                     /\ contains "," a = false /\ contains "," b = false
                     /\ float_of_string a <> None /\ float_of_string b <> None) ->
      exists df', load_and_clean_data float_of_string to_numeric_text df = Ok df').
Proof.
  split.
  - intros df' Hclean.
    apply clean_ok in Hclean as (_ & _ & Hparse & Hrows & Hcols & _).
    split; [|split; [|split]].
    + unfold has_column. rewrite Hcols. apply has_column_add, add_column_has.
    + unfold has_column. rewrite Hcols. apply add_column_has.
    + rewrite Hrows. apply length_map.
    + intros i r a b Hi Hc Ha Hb.
      exists (clean_row float_of_string to_numeric_text r).
      split; [rewrite Hrows, nth_error_map, Hi; reflexivity|].
      apply nth_error_In in Hi.
      assert (Hparts : cell_parts "," (Coordinates r) = [Some a; Some b])
        by (rewrite Hc; unfold cell_parts; rewrite (split_pair a b Ha Hb); reflexivity).
      pose proof (Hparse r a Hi) as Hpa. pose proof (Hparse r b Hi) as Hpb.
      rewrite Hparts in Hpa, Hpb.
      unfold clean_row, row_latlon. rewrite Hparts. simpl.
      destruct (float_of_string a); [|exfalso; apply Hpa; simpl; auto].
      destruct (float_of_string b); [|exfalso; apply Hpb; simpl; auto].
      split; reflexivity.
  - intros Hcol Hcap Hne Hwf.
    assert (Hparts : forall r, In r (rows df) ->
              exists a b, cell_parts "," (Coordinates r) = [Some a; Some b]
                          /\ float_of_string a <> None /\ float_of_string b <> None).
    { intros r Hr. destruct (Hwf r Hr) as (a & b & Hc & Ha & Hb & Hpa & Hpb).
      exists a, b. rewrite Hc. unfold cell_parts. rewrite (split_pair a b Ha Hb).
      repeat split; assumption. }
    apply clean_succeeds; try assumption.
    + unfold split_width. clear Hwf. induction (rows df) as [|r l IH]; [contradiction|].
      simpl. assert (Hr : components r = 2).
      { destruct (Hparts r (or_introl eq_refl)) as (a & b & E & _).
        unfold components. rewrite E. reflexivity. }
      rewrite Hr. destruct l as [|r1 l]; [reflexivity|].
      rewrite IH; [reflexivity | discriminate |].
      intros; apply Hparts; right; assumption.
    + intros r part Hr Hp. destruct (Hparts r Hr) as (a & b & E & Hpa & Hpb).
      rewrite E in Hp. destruct Hp as [Hp | [Hp | []]]; injection Hp as <-; assumption.
Qed.

(** The coordinate text ["40.0,-95.0"] yields latitude 40.0 and
    longitude -95.0, in a frame that has gained the two columns. *)
Lemma C9_witness :
  has_column forty_df "Latitude" = false
  /\ has_column forty_df "Longitude" = false
  /\ exists df' r',
       load_and_clean_data read_decimal read_decimal forty_df = Ok df'
       /\ has_column df' "Latitude" = true
       /\ has_column df' "Longitude" = true
       /\ length (rows df') = 1
       /\ nth_error (rows df') 0 = Some r'
       /\ read_decimal "40.0" = Some (Latitude r')
       /\ read_decimal "-95.0" = Some (Longitude r')
       /\ Latitude r' =f= Some 40%Q
       /\ Longitude r' =f= Some (-95)%Q.
Proof.
  split; [reflexivity|]. split; [reflexivity|].
  destruct (load_and_clean_data read_decimal read_decimal forty_df) as [df' | e] eqn:E;
    [|discriminate E].
  destruct (C9_coordinates_split_exactly read_decimal read_decimal forty_df) as [H _].
  destruct (H df' E) as (Hlatc & Hlonc & Hlen & Hsplit).
  destruct (Hsplit 0 (raw_row (Some "KS") (Some "40.0,-95.0") (Number (Some 1%Q)) (Some 1%Q))
              "40.0" "-95.0" eq_refl eq_refl eq_refl eq_refl)
    as (r' & Hr' & Hlat & Hlon).
  exists df', r'. split; [reflexivity|]. split; [exact Hlatc|]. split; [exact Hlonc|].
  split; [exact Hlen|]. split; [exact Hr'|].
  split; [exact Hlat|]. split; [exact Hlon|].
  revert Hlat Hlon. generalize (Latitude r') (Longitude r'). intros x y Hlat Hlon.
  vm_compute in Hlat, Hlon. injection Hlat as <-. injection Hlon as <-.
  split; reflexivity.
Defined.

(** ** C2: markers of the map *)

Lemma mapM_Forall2 {A B : Type} (f : A -> result B) (P : A -> B -> Prop) (l : list A) :
  (forall a, In a l -> exists b, f a = Ok b /\ P a b) ->
  exists l', mapM f l = Ok l' /\ Forall2 P l l'.
Proof.
  induction l as [|a l IH]; simpl; intros H.
  - exists []. split; [reflexivity | constructor].
  - destruct (H a (or_introl eq_refl)) as (b & -> & Hb).
    destruct IH as (l' & -> & Hl'); [intros; apply H; right; assumption|].
    exists (b :: l'). split; [reflexivity | constructor; assumption].
Qed.

Lemma Series_mean_present (l : list float) :
  l <> [] -> (forall x, In x l -> x <> NaN) -> exists q, Series_mean l = Some q.
Proof.
  intros Hne Hall. unfold Series_mean. rewrite Series_sum_eq, Series_count_dropna.
  destruct l as [|[q|] l]; [contradiction | | exfalso; apply (Hall None); simpl; auto].
  simpl. eexists. reflexivity.
Qed.

Lemma circle_marker_invalid (df : DataFrame) (r : Row) :
  valid_coordinates r = false -> aborted (circle_marker df r).
Proof.
  intros Hr. unfold circle_marker, row_item.
  repeat match goal with
         | |- context [has_column df ?l] =>
             destruct (has_column df l); simpl; [|eexists; reflexivity]
         end.
  unfold valid_coordinates in Hr.
  destruct (Latitude r), (Longitude r); simpl in *;
    try discriminate; eexists; reflexivity.
Qed.

(** C2 as stated fails on the frame that cleaning returns for a record with
    a single coordinate component: the record is not left out, the marker
    constructor rejects its NaN longitude and no map is returned. *)
Lemma C2_counterexample :
  exists df',
    load_and_clean_data read_decimal read_decimal short_coordinate_df = Ok df'
    /\ map valid_coordinates (rows df') = [true; false]
    /\ aborted (create_map df').
Proof.
  eexists. split; [vm_compute; reflexivity|].
  split; [reflexivity|]. eexists. vm_compute. reflexivity.
Qed.

(** C2 (amended).  For every non-empty table in which every record has a
    latitude and a longitude, the map renderer returns a map with exactly
    one marker per record, in record order, each at its record's position
    and labelled with its project, facility and capacity.  No record is
    filtered out: if some record lacks a coordinate, rendering aborts. *)
Theorem C2_one_marker_per_record (df : DataFrame) :
  (has_column df "Latitude" = true -> has_column df "Longitude" = true ->
   has_column df "Project_Name" = true -> has_column df "Facility" = true ->
   has_column df "Installed_Capacity" = true ->
   rows df <> [] ->
   (forall r, In r (rows df) -> valid_coordinates r = true) ->
   exists m, create_map df = Ok m
             /\ length (markers m) = length (rows df)
             /\ Forall2 marks (rows df) (markers m))
  /\ ((exists r, In r (rows df) /\ valid_coordinates r = false) ->
      aborted (create_map df)).
Proof.
  split.
  - intros Hlat Hlon Hproj Hfac Hcap Hne Hvalid. unfold create_map.
    rewrite (getitem_present _ _ _ Hlat), (getitem_present _ _ _ Hlon). simpl.
    destruct (Series_mean_present (map Latitude (rows df))) as [clat ->].
    { destruct (rows df); [contradiction | discriminate]. }
    { intros x Hx. apply in_map_iff in Hx as (r & <- & Hr).
      specialize (Hvalid r Hr). unfold valid_coordinates in Hvalid.
      destruct (Latitude r); [discriminate | discriminate]. }
    destruct (Series_mean_present (map Longitude (rows df))) as [clon ->].
    { destruct (rows df); [contradiction | discriminate]. }
    { intros x Hx. apply in_map_iff in Hx as (r & <- & Hr).
      specialize (Hvalid r Hr). unfold valid_coordinates in Hvalid.
      destruct (Latitude r), (Longitude r); discriminate. }
    simpl.
    destruct (mapM_Forall2 (circle_marker df) marks (rows df)) as (ms & -> & Hms).
    { intros r Hr. specialize (Hvalid r Hr). unfold valid_coordinates in Hvalid.
      unfold circle_marker, row_item. rewrite Hlat, Hlon, Hproj, Hfac, Hcap. simpl.
      destruct (Latitude r) as [a|] eqn:Ea, (Longitude r) as [b|] eqn:Eb;
        try discriminate.
      simpl. eexists. split; [reflexivity|].
      unfold marks. simpl. rewrite Ea, Eb. repeat split; reflexivity. }
    simpl. eexists. split; [reflexivity|]. simpl.
    split; [symmetry; eapply Forall2_length; eassumption | assumption].
  - intros (r & Hr & Hinvalid).
    destruct (create_map df) as [m | e] eqn:E; [exfalso | exists e; reflexivity].
    unfold create_map in E. bind_inv E.
    destruct (mapM_err (circle_marker df) (rows df) r Hr
                (circle_marker_invalid df r Hinvalid)) as [e He].
    congruence.
Qed.

(** Three valid records give three markers; a record without a longitude
    stops the rendering. *)
Lemma C2_witness :
  (exists m, create_map one_missing_df = Ok m
             /\ length (markers m) = 3
             /\ Forall2 marks (rows one_missing_df) (markers m))
  /\ aborted (create_map missing_longitude_df).
Proof.
  split.
  - destruct (C2_one_marker_per_record one_missing_df) as [H _].
    apply H; try reflexivity.
    + discriminate.
    + simpl. intros r Hr.
      repeat (destruct Hr as [<- | Hr]; [reflexivity|]). contradiction.
  - destruct (C2_one_marker_per_record missing_longitude_df) as [_ H].
    apply H.
    exists (sample_row (Some "OK") (Some 2%Q) (Some 2%Q) (Some 41%Q) NaN).
    split; [simpl; auto | reflexivity].
Defined.

(** ** The correlation coefficient *)

Lemma np_sum_nan (l : list float) : In NaN l -> np_sum l = None.
Proof.
  unfold np_sum. induction l as [|x l IH]; simpl; [tauto|].
  intros [-> | H]; [reflexivity|]. rewrite (IH H). destruct x; reflexivity.
Qed.

Lemma np_mean_nan (l : list float) : In NaN l -> np_mean l = None.
Proof. intros H. unfold np_mean. rewrite (np_sum_nan l H). reflexivity. Qed.

Lemma fsub_nan (v : float) : fsub v None = None.
Proof. destruct v; reflexivity. Qed.

Lemma np_dot_nan_l (u v : list float) :
  u <> [] -> v <> [] -> np_dot (map (fun x => fsub x None) u) v = None.
Proof.
  destruct u as [|a u]; [contradiction|]. destruct v as [|b v]; [contradiction|].
  intros _ _. simpl. rewrite fsub_nan. reflexivity.
Qed.

Lemma np_dot_somes (u v : list Q) :
  np_dot (map Some u) (map Some v) = Some (qdot u v).
Proof.
  revert v. induction u as [|a u IH]; intros [|b v]; simpl; try reflexivity.
  rewrite IH. reflexivity.
Qed.

(** The norm of a column centred on a mean that is NaN is refused. *)
Lemma linalg_norm2_nan (x : list float) :
  In NaN x ->
  linalg_norm2 (map (fun v => fsub v (np_mean x)) x)
  = Err (ValueError "array must not contain infs or NaNs").
Proof.
  intros H. rewrite (np_mean_nan x H). unfold linalg_norm2.
  rewrite np_dot_nan_l; [reflexivity | |];
    destruct x; simpl; [destruct H | discriminate | destruct H | discriminate].
Qed.

(** With a NaN in either column the coefficient is never a number: where
    [pearsonr] returns, it returns NaN. *)
Lemma pearsonr_nan (x y : list float) (r : corr) :
  In NaN x \/ In NaN y -> pearsonr x y = Ok r -> r = CorrNaN.
Proof.
  intros Hnan. unfold pearsonr. cbv zeta.
  destruct (Nat.eqb_spec (length x) (length y)) as [Hlen | _]; cbn [negb];
    [|discriminate].
  destruct (Nat.ltb (length x) 2); [discriminate|].
  destruct (is_constant x || is_constant y);
    [intros H; injection H as <-; reflexivity|].
  destruct (Nat.eqb_spec (length x) 2) as [H2 | H2].
  - rewrite H2 in Hlen.
    destruct x as [|x0 [|x1 [|x2 x]]]; try discriminate.
    destruct y as [|y0 [|y1 [|y2 y]]]; try discriminate.
    simpl in Hnan. cbn [nth].
    destruct x0, x1, y0, y1; cbn [fsub fmap2 fsign fmul];
      intros H; try (injection H as <-; reflexivity);
      exfalso; destruct Hnan as [[E | [E | []]] | [E | [E | []]]]; discriminate.
  - destruct Hnan as [H | H].
    + rewrite (linalg_norm2_nan x H). cbn [bind]. discriminate.
    + destruct (linalg_norm2 (map (fun v => fsub v (np_mean x)) x));
        cbn [bind]; [|discriminate].
      rewrite (linalg_norm2_nan y H). cbn [bind]. discriminate.
Qed.

(** A constant column makes the coefficient NaN. *)
Lemma pearsonr_constant (x y : list float) :
  length x = length y -> 2 <= length x ->
  is_constant x = true \/ is_constant y = true ->
  pearsonr x y = Ok CorrNaN.
Proof.
  intros Hlen Hn Hc. unfold pearsonr.
  rewrite <- Hlen, Nat.eqb_refl. simpl.
  destruct (Nat.ltb_spec (length x) 2) as [Hlt | _]; [lia|].
  destruct Hc as [-> | ->]; [reflexivity | rewrite orb_true_r; reflexivity].
Qed.

Lemma present_series (x : list float) : ~ In NaN x -> exists xs, x = map Some xs.
Proof.
  induction x as [|[q|] x IH]; intros H.
  - exists []. reflexivity.
  - destruct IH as [xs ->]; [intros Hin; apply H; right; exact Hin|].
    exists (q :: xs). reflexivity.
  - exfalso. apply H. left. reflexivity.
Qed.

Lemma centred_series (xs : list Q) :
  xs <> [] ->
  exists m, map (fun v => fsub v (np_mean (map Some xs))) (map Some xs)
            = map Some (map (fun q => (q - m)%Q) xs).
Proof.
  intros H. rewrite (np_mean_present xs H).
  exists (Qsum xs / Qof_nat (length xs))%Q. rewrite !map_map. reflexivity.
Qed.

(** On columns of equal length it returns when there are exactly two
    observations, and when there are more and none is missing. *)
Lemma pearsonr_total (x y : list float) :
  length x = length y -> 2 <= length x ->
  length x = 2 \/ (~ In NaN x /\ ~ In NaN y) ->
  exists r, pearsonr x y = Ok r.
Proof.
  intros Hlen Hn Hcase. unfold pearsonr. cbv zeta.
  rewrite <- Hlen, Nat.eqb_refl. cbn [negb].
  destruct (Nat.ltb_spec (length x) 2) as [Hlt | _]; [lia|].
  destruct (is_constant x || is_constant y); [eexists; reflexivity|].
  destruct (Nat.eqb_spec (length x) 2) as [E2 | N2].
  - destruct (fmul _ _); eexists; reflexivity.
  - destruct Hcase as [E | [Hx Hy]]; [contradiction|].
    destruct (present_series x Hx) as [xs ->].
    destruct (present_series y Hy) as [ys ->].
    assert (Hxs : xs <> []) by (destruct xs; [simpl in Hn; lia | discriminate]).
    assert (Hys : ys <> [])
      by (destruct ys; [simpl in Hlen; rewrite Hlen in Hn; simpl in Hn; lia | discriminate]).
    destruct (centred_series xs Hxs) as [mx ->].
    destruct (centred_series ys Hys) as [my ->].
    unfold linalg_norm2. rewrite !np_dot_somes. cbn [bind].
    eexists. reflexivity.
Qed.

Lemma pearsonr_ok_length (x y : list float) (r : corr) :
  pearsonr x y = Ok r -> length x = length y /\ 2 <= length x.
Proof.
  unfold pearsonr.
  destruct (Nat.eqb_spec (length x) (length y)) as [E | E]; simpl; [|discriminate].
  destruct (Nat.ltb_spec (length x) 2) as [Hlt | Hge]; [discriminate|].
  intros _. split; assumption.
Qed.

Lemma perform_analysis_short (df : DataFrame) :
  length (rows df) < 2 -> aborted (perform_analysis df).
Proof.
  intros Hshort.
  destruct (perform_analysis df) as [a | e] eqn:E; [exfalso | exists e; reflexivity].
  apply analysis_ok in E as (r & Hr & _).
  apply pearsonr_ok_length in Hr as [_ Hr]. rewrite length_map in Hr. lia.
Qed.

(** The analysis returns on a frame that has the four columns it reads and
    numeric capacity cells when there are exactly two records, and when
    there are more and no unit count and no capacity is missing. *)
Lemma perform_analysis_total (df : DataFrame) :
  has_column df "State" = true -> has_column df "Installed_Capacity" = true ->
  has_column df "Facility" = true -> has_column df "Number_of_Units" = true ->
  (forall r, In r (rows df) -> exists x, Installed_Capacity r = Number x) ->
  2 <= length (rows df) ->
  length (rows df) = 2
  \/ (forall r, In r (rows df) -> Number_of_Units r <> NaN /\ capacity r <> NaN) ->
  exists a, perform_analysis df = Ok a.
Proof.
  intros Hs Hc Hf Hu Hnum Hn Hcase. unfold perform_analysis.
  rewrite (getitem_present _ _ _ Hs), (getitem_present _ _ _ Hc). simpl.
  rewrite numeric_all_numbers.
  2:{ intros c Hin. apply in_map_iff in Hin as (r & <- & Hr). apply Hnum, Hr. }
  simpl. rewrite (getitem_present _ _ _ Hf), (getitem_present _ _ _ Hu). simpl.
  destruct (pearsonr_total (map Number_of_Units (rows df))
              (map cell_float (map Installed_Capacity (rows df)))) as [r ->].
  - rewrite !length_map. reflexivity.
  - rewrite length_map. exact Hn.
  - rewrite length_map. destruct Hcase as [E | Hall]; [left; exact E | right].
    split; intros Hin.
    + apply in_map_iff in Hin as (r & E & Hr). destruct (Hall r Hr) as [H _]. auto.
    + rewrite map_map in Hin. apply in_map_iff in Hin as (r & E & Hr).
      destruct (Hall r Hr) as [_ H]. auto.
  - simpl. eexists. reflexivity.
Qed.

(** ** C3: a record whose capacity is not a number *)

Lemma value_counts_In (l : list (option string)) (e : string * nat) :
  In e (value_counts l) -> In (Some (fst e)) l /\ snd e = occurrences (fst e) l.
Proof.
  unfold value_counts. intros H.
  eapply Permutation_in in H; [|apply sort_by_perm].
  apply in_map_iff in H as (k & <- & Hk). simpl.
  apply unique_In, somes_In in Hk. split; [exact Hk | reflexivity].
Qed.

Lemma occurrences_absent (k : string) (l : list (option string)) :
  ~ In (Some k) l -> occurrences k l = 0.
Proof.
  unfold occurrences. induction l as [|o l IH]; simpl; [reflexivity|].
  intros H. destruct (is_label k o) eqn:E.
  - apply is_label_true in E. exfalso. apply H. left. exact E.
  - apply IH. intros Hin. apply H. right. exact Hin.
Qed.

(** The entry of a label in [value_counts] is its number of records. *)
Lemma count_of_value_counts (k : string) (l : list (option string)) :
  count_of k (value_counts l) = occurrences k l.
Proof.
  unfold count_of.
  destruct (find (fun e => String.eqb (fst e) k) (value_counts l)) as [e|] eqn:E.
  - apply find_some in E as [Hin Hk]. apply String.eqb_eq in Hk. subst k.
    apply value_counts_In in Hin as [_ H]. exact H.
  - symmetry. apply occurrences_absent. intros Hin.
    assert (H : In (k, occurrences k l) (value_counts l)).
    { unfold value_counts. eapply Permutation_in; [apply Permutation_sym, sort_by_perm|].
      apply in_map_iff. exists k. split; [reflexivity|].
      apply unique_In, somes_In. exact Hin. }
    pose proof (find_none _ _ E _ H) as Hf. simpl in Hf.
    rewrite String.eqb_refl in Hf. discriminate.
Qed.

Lemma occurrences_insert (k : string) (l1 l2 : list (option string)) :
  occurrences k (l1 ++ Some k :: l2) = S (occurrences k (l1 ++ l2)).
Proof.
  unfold occurrences. rewrite !filter_app, !length_app. simpl.
  rewrite String.eqb_refl. simpl. lia.
Qed.

Lemma Qeq_refl_div (a b c : Q) : (a == b)%Q -> (a / c == b / c)%Q.
Proof. intros ->. reflexivity. Qed.

Lemma Series_sum_skip (l1 l2 : list float) :
  Series_sum (l1 ++ NaN :: l2) =f= Series_sum (l1 ++ l2).
Proof.
  rewrite !Series_sum_eq. simpl. rewrite !sum_present_app. simpl. ring.
Qed.

Lemma Series_count_skip (l1 l2 : list float) :
  Series_count (l1 ++ NaN :: l2) = Series_count (l1 ++ l2).
Proof. rewrite !Series_count_dropna, !dropna_app. reflexivity. Qed.

Lemma Series_mean_skip (l1 l2 : list float) :
  Series_mean (l1 ++ NaN :: l2) =f= Series_mean (l1 ++ l2).
Proof.
  unfold Series_mean. rewrite Series_count_skip, !Series_sum_eq. simpl.
  destruct (Nat.eqb (Series_count (l1 ++ l2)) 0); simpl; [exact I|].
  rewrite !sum_present_app. simpl. apply Qeq_refl_div. ring.
Qed.

Lemma summary_total (df : DataFrame) :
  has_column df "State" = true -> has_column df "Installed_Capacity" = true ->
  has_column df "Facility" = true ->
  (forall r, In r (rows df) -> exists x, Installed_Capacity r = Number x) ->
  exists s, generate_statistical_summary df = Ok s.
Proof.
  intros Hs Hc Hf Hnum. unfold generate_statistical_summary.
  rewrite (getitem_present _ _ _ Hs), (getitem_present _ _ _ Hc). simpl.
  rewrite numeric_all_numbers.
  2:{ intros c Hin. apply in_map_iff in Hin as (r & <- & Hr). apply Hnum, Hr. }
  simpl. rewrite (getitem_present _ _ _ Hf). simpl. eexists. reflexivity.
Qed.

Lemma has_column_cleaned (df df' : DataFrame) (label : string) :
  columns df' = add_column "Longitude" (add_column "Latitude" (columns df)) ->
  has_column df label = true -> has_column df' label = true.
Proof.
  unfold has_column. intros -> H. apply has_column_add, has_column_add, H.
Qed.

(** C3 as stated fails on the correlation: the record with the capacity
    text ["N/A"] is not left out of it.  Without the record the remaining
    three records are perfectly correlated (1.00); with the record in the
    cleaned table the analysis does not return that coefficient (the
    correlation raises on the missing capacity, or yields NaN). *)
Lemma C3_counterexample :
  exists df' a',
    load_and_clean_data read_decimal read_decimal na_capacity_df = Ok df'
    /\ map capacity (rows df') = [Some 1.0%Q; Some 2.0%Q; NaN; Some 4.0%Q]
    /\ perform_analysis (drop_record 2 df') = Ok a'
    /\ format_corr_2f (capacity_units_correlation a') = "1.00"
    /\ ~ (exists a, perform_analysis df' = Ok a
                    /\ capacity_units_correlation a = capacity_units_correlation a').
Proof.
  eexists. eexists.
  split; [vm_compute; reflexivity|]. split; [reflexivity|].
  split; [vm_compute; reflexivity|]. split; [vm_compute; reflexivity|].
  intros (a & Ha & _). vm_compute in Ha. discriminate Ha.
Qed.

(** C3 (amended).  When cleaning returns a frame, a record whose capacity
    text is not a number has its capacity marked missing; the capacity sum
    and mean of the summary are those of the table without the record; the
    record is counted in the total record count and, under its state label,
    in the per-state counts.  The correlation does not leave the record
    out: with such a record in the table the analysis never returns a
    numeric coefficient (whenever it returns, the coefficient is NaN, and on
    a table of exactly two records it does return). *)
Theorem C3_unparseable_capacity
  (float_of_string to_numeric_text : string -> option float)
  (df df' : DataFrame) (l1 l2 : list Row) (r : Row) (txt : string) :
  rows df = l1 ++ r :: l2 ->
  Installed_Capacity r = Text txt ->
  to_numeric_text txt = None ->
  load_and_clean_data float_of_string to_numeric_text df = Ok df' ->
  has_column df "State" = true ->
  has_column df "Facility" = true ->
  has_column df "Number_of_Units" = true ->
  exists l1' r' l2' s,
    rows df' = l1' ++ r' :: l2'
    /\ length l1' = length l1 /\ length l2' = length l2
    /\ capacity r' = NaN /\ State r' = State r
    /\ generate_statistical_summary df' = Ok s
    /\ total_capacity s =f= Series_sum (map capacity (l1' ++ l2'))
    /\ avg_capacity s =f= Series_mean (map capacity (l1' ++ l2'))
    /\ total_projects s = S (length (l1' ++ l2'))
    /\ (forall st, State r = Some st ->
        count_of st (state_counts s) = S (occurrences st (map State (l1' ++ l2'))))
    /\ (forall a, perform_analysis df' = Ok a ->
        capacity_units_correlation a = CorrNaN)
    /\ (length (rows df) = 2 -> exists a, perform_analysis df' = Ok a).
Proof.
  intros Hrows Hcell Htxt Hclean Hstate Hfac Hunits.
  apply clean_ok in Hclean as (_ & _ & _ & Hrows' & Hcols & Hcap).
  set (cleaned := clean_row float_of_string to_numeric_text) in *.
  rewrite Hrows, map_app in Hrows'. simpl in Hrows'.
  assert (Hnan : capacity (cleaned r) = NaN).
  { unfold cleaned, clean_row, capacity. simpl. rewrite Hcell. simpl.
    rewrite Htxt. reflexivity. }
  assert (Hnum : forall r0, In r0 (rows df') -> exists x, Installed_Capacity r0 = Number x).
  { intros r0 Hr0. rewrite Hrows' in Hr0.
    assert (Hin : In r0 (map cleaned (l1 ++ r :: l2)))
      by (rewrite map_app; exact Hr0).
    apply in_map_iff in Hin as (r1 & <- & _).
    unfold cleaned, clean_row. simpl.
    destruct (Installed_Capacity r1) as [t | x]; simpl; [|eexists; reflexivity].
    destruct (to_numeric_text t); eexists; reflexivity. }
  pose proof (has_column_cleaned df df' _ Hcols Hstate) as Hstate'.
  pose proof (has_column_cleaned df df' _ Hcols Hfac) as Hfac'.
  pose proof (has_column_cleaned df df' _ Hcols Hunits) as Hunits'.
  destruct (summary_total df' Hstate' Hcap Hfac' Hnum) as [s Hs].
  exists (map cleaned l1), (cleaned r), (map cleaned l2), s.
  pose proof (summary_ok df' s Hs) as Es.
  assert (Ecaps : capacities df'
                  = map capacity (map cleaned l1) ++ NaN :: map capacity (map cleaned l2)).
  { unfold capacities. rewrite Hrows', map_app. simpl. rewrite Hnan. reflexivity. }
  split; [exact Hrows'|]. split; [apply length_map|]. split; [apply length_map|].
  split; [exact Hnan|]. split; [reflexivity|]. split; [exact Hs|].
  rewrite Es. simpl. rewrite Ecaps, map_app.
  split; [apply Series_sum_skip|]. split; [apply Series_mean_skip|].
  split; [rewrite Hrows', !length_app; simpl; lia|].
  split; [|split].
  - intros st Hst. rewrite count_of_value_counts, Hrows', !map_app. simpl.
    change (State (cleaned r)) with (State r). rewrite Hst.
    apply occurrences_insert.
  - intros a Ha. apply analysis_ok in Ha as (c & Hc & ->). simpl.
    eapply pearsonr_nan; [|exact Hc].
    right. rewrite Ecaps. apply in_or_app. right. left. reflexivity.
  - intros Hlen.
    assert (Hlen' : length (rows df') = 2).
    { rewrite Hrows', length_app. simpl. rewrite !length_map.
      rewrite Hrows, length_app in Hlen. simpl in Hlen. exact Hlen. }
    apply perform_analysis_total; try assumption; [lia | left; exact Hlen'].
Qed.

(** On the four-record table whose third capacity text is ["N/A"]: total
    7, mean 7/3, four projects, two installations in OK.  On the two-record
    table whose second capacity text is ["n/a"] the analysis returns, with
    the coefficient NaN. *)
Lemma C3_witness :
  (exists df' s,
     load_and_clean_data read_decimal read_decimal na_capacity_df = Ok df'
     /\ generate_statistical_summary df' = Ok s
     /\ total_capacity s =f= Some 7%Q
     /\ avg_capacity s =f= Some (7 # 3)%Q
     /\ total_projects s = 4
     /\ count_of "OK" (state_counts s) = 2)
  /\ (exists df' a,
        load_and_clean_data read_decimal read_decimal two_raw_df = Ok df'
        /\ perform_analysis df' = Ok a
        /\ capacity_units_correlation a = CorrNaN).
Proof.
  split.
  - destruct (load_and_clean_data read_decimal read_decimal na_capacity_df)
      as [df' | e] eqn:E; [|discriminate E].
    destruct (C3_unparseable_capacity read_decimal read_decimal na_capacity_df df'
                [ raw_row (Some "KS") (Some "40.0,-95.0") (Text "1.0") (Some 1%Q);
                  raw_row (Some "OK") (Some "41.0,-96.0") (Text "2.0") (Some 2%Q) ]
                [ raw_row (Some "TX") (Some "43.0,-98.0") (Text "4.0") (Some 4%Q) ]
                (raw_row (Some "OK") (Some "42.0,-97.0") (Text "N/A") (Some 3%Q))
                "N/A" eq_refl eq_refl eq_refl E eq_refl eq_refl eq_refl)
      as (l1' & r' & l2' & s & _ & _ & _ & _ & _ & Hs & _).
    exists df', s. split; [reflexivity|]. split; [exact Hs|].
    vm_compute in E. injection E as <-.
    vm_compute in Hs. injection Hs as <-.
    split; [reflexivity|]. split; [reflexivity|]. split; reflexivity.
  - destruct (load_and_clean_data read_decimal read_decimal two_raw_df)
      as [df' | e] eqn:E; [|discriminate E].
    destruct (C3_unparseable_capacity read_decimal read_decimal two_raw_df df'
                [ raw_row (Some "KS") (Some "40.0,-95.0") (Text "1.5") (Some 1%Q) ]
                []
                (raw_row (Some "OK") (Some "41.0,-96.0") (Text "n/a") (Some 3%Q))
                "n/a" eq_refl eq_refl eq_refl E eq_refl eq_refl eq_refl)
      as (l1' & r' & l2' & s & _ & _ & _ & _ & _ & _ & _ & _ & _ & _ & Hnan & Hret).
    destruct (Hret eq_refl) as [a Ha].
    exists df', a. split; [reflexivity|]. split; [exact Ha|]. exact (Hnan a Ha).
Defined.

(** ** C1: the undefined correlation *)

Lemma contains_append (c : ascii) (a b : string) :
  contains c (a ++ b)%string = contains c a || contains c b.
Proof.
  induction a as [|x a IH]; simpl; [reflexivity|].
  rewrite IH, orb_assoc. reflexivity.
Qed.

(** The rendering of a number has a decimal point; ["nan"] has none. *)
Lemma format_2f_number (q : Q) : contains "." (format_2f (Some q)) = true.
Proof.
  unfold format_2f, hundredths_text.
  rewrite !contains_append. simpl. rewrite !orb_true_r. reflexivity.
Qed.

Lemma format_2f_not_nan (q : Q) : format_2f (Some q) <> "nan".
Proof.
  intros H. pose proof (format_2f_number q) as Hdot. rewrite H in Hdot.
  discriminate Hdot.
Qed.

Lemma Qsquare_nonneg (a : Q) : (0 <= a * a)%Q.
Proof. destruct a as [n d]. unfold Qle. simpl. nia. Qed.

Lemma Qsum_sq_nonneg (m : Q) (l : list Q) :
  (0 <= Qsum (map (fun x => (x - m) * (x - m)) l))%Q.
Proof.
  induction l as [|x l IH]; simpl; [apply Qle_refl|].
  pose proof (Qsquare_nonneg (x - m)) as Hsq. lra.
Qed.

Lemma Qsum_sq_zero (m : Q) (l : list Q) :
  (Qsum (map (fun x => (x - m) * (x - m)) l) == 0)%Q ->
  forall x, In x l -> (x == m)%Q.
Proof.
  induction l as [|y l IH]; simpl; [tauto|].
  intros Hz x Hx.
  pose proof (Qsquare_nonneg (y - m)) as Hsq.
  pose proof (Qsum_sq_nonneg m l) as Hrest.
  assert (Hy : ((y - m) * (y - m) == 0)%Q) by lra.
  assert (Hl : (Qsum (map (fun x => (x - m) * (x - m)) l) == 0)%Q) by lra.
  destruct Hx as [<- | Hx]; [|apply IH; assumption].
  apply Qmult_integral in Hy. destruct Hy; lra.
Qed.

Lemma variance_zero_constant (l : list Q) :
  l <> [] -> (variance l == 0)%Q -> is_constant (map Some l) = true.
Proof.
  intros Hne Hv. unfold variance in Hv.
  set (m := (Qsum l / Qof_nat (length l))%Q) in *.
  assert (Hn : (0 < Qof_nat (length l))%Q).
  { apply Qof_nat_pos. destruct l; [contradiction | simpl; lia]. }
  assert (Hz : (Qsum (map (fun x => (x - m) * (x - m)) l) == 0)%Q).
  { assert (E : (Qsum (map (fun x => (x - m) * (x - m)) l)
                 == Qsum (map (fun x => (x - m) * (x - m)) l) / Qof_nat (length l)
                    * Qof_nat (length l))%Q) by (field; lra).
    rewrite E, Hv. ring. }
  pose proof (Qsum_sq_zero m l Hz) as Hall.
  destruct l as [|x0 l]; [contradiction|].
  unfold is_constant. cbn [map]. apply forallb_forall.
  intros v Hv'. change (Some x0 :: map Some l) with (map Some (x0 :: l)) in Hv'.
  apply in_map_iff in Hv' as (x & <- & Hx).
  simpl. apply Qeq_bool_iff.
  rewrite (Hall x Hx), (Hall x0 (or_introl eq_refl)). reflexivity.
Qed.

Lemma pairs_all_present (l : list Row) :
  (forall r, In r l -> Number_of_Units r <> NaN /\ capacity r <> NaN) ->
  map Number_of_Units l = map Some (map fst (pairs_of l))
  /\ map capacity l = map Some (map snd (pairs_of l))
  /\ length (pairs_of l) = length l.
Proof.
  induction l as [|r l IH]; simpl; intros H; [repeat split|].
  destruct (H r (or_introl eq_refl)) as [Hu Hc].
  destruct IH as (IH1 & IH2 & IH3); [intros; apply H; right; assumption|].
  destruct (Number_of_Units r) as [u|]; [|contradiction].
  destruct (capacity r) as [c|]; [|contradiction].
  simpl. rewrite IH1, IH2, IH3. repeat split.
Qed.

Lemma existsb_isna (l : list float) : existsb isna l = true <-> In NaN l.
Proof.
  rewrite existsb_exists. split.
  - intros ([q|] & Hin & H); [discriminate | exact Hin].
  - intros H. exists NaN. split; [exact H | reflexivity].
Qed.

(** Whenever the specification calls the correlation undefined, [pearsonr]
    returns no number: where it returns, it returns NaN. *)
Lemma pearsonr_undefined (df : DataFrame) (c : corr) :
  correlation_undefined df ->
  pearsonr (map Number_of_Units (rows df)) (capacities df) = Ok c ->
  c = CorrNaN.
Proof.
  intros Hundef Hc.
  destruct (pearsonr_ok_length _ _ _ Hc) as [Hl Hn].
  destruct (existsb isna (map Number_of_Units (rows df))) eqn:Eu.
  { eapply pearsonr_nan; [|exact Hc]. left. apply existsb_isna. exact Eu. }
  destruct (existsb isna (capacities df)) eqn:Ec.
  { eapply pearsonr_nan; [|exact Hc]. right. apply existsb_isna. exact Ec. }
  destruct (pairs_all_present (rows df)) as (Hu & Hcp & Hp).
  { intros r Hr. split; intros E.
    - assert (H : existsb isna (map Number_of_Units (rows df)) = true).
      { apply existsb_isna. rewrite <- E. apply in_map. exact Hr. }
      congruence.
    - assert (H : existsb isna (capacities df) = true).
      { apply existsb_isna. rewrite <- E. apply (in_map capacity). exact Hr. }
      congruence. }
  fold (complete_pairs df) in Hu, Hcp, Hp.
  rewrite length_map in Hn.
  assert (Hne : forall (f : Q * Q -> Q), map f (complete_pairs df) <> []).
  { intros f E. apply (f_equal (@length _)) in E. rewrite length_map, Hp in E.
    simpl in E. lia. }
  rewrite pearsonr_constant in Hc.
  - injection Hc as <-. reflexivity.
  - exact Hl.
  - rewrite length_map. exact Hn.
  - unfold capacities. rewrite Hu, Hcp.
    destruct Hundef as [H | [H | H]]; [lia | left | right];
      apply variance_zero_constant; auto.
Qed.

(** C1 as stated fails on a table with a single record: it has fewer than
    two complete observations, [pearsonr] raises, the analysis returns
    nothing and no report can be generated. *)
Lemma C1_counterexample :
  correlation_undefined one_row_df
  /\ ~ (exists a, perform_analysis one_row_df = Ok a).
Proof.
  split.
  - left. simpl. lia.
  - intros [a Ha]. vm_compute in Ha. discriminate Ha.
Qed.

(** C1 (amended).  For every cleaned table in which fewer than two records
    have both a capacity and a unit count, or in which the capacity or the
    unit-count series has zero variance, the analysis yields no numeric
    correlation: whenever it returns, the coefficient is NaN and the report
    prints it as the text "nan", which is the rendering of no number.  It
    does return when the table has exactly two records, and when it has more
    and no record lacks a unit count or a capacity.  For a table with fewer
    than two records the correlation computation raises and the analysis
    returns nothing. *)
Theorem C1_undefined_correlation (df : DataFrame) :
  correlation_undefined df ->
  (forall a, perform_analysis df = Ok a ->
     capacity_units_correlation a = CorrNaN
     /\ forall s,
          report_correlation (generate_report s a) = "nan"
          /\ forall q, report_correlation (generate_report s a) <> format_2f (Some q))
  /\ (has_column df "State" = true -> has_column df "Installed_Capacity" = true ->
      has_column df "Facility" = true -> has_column df "Number_of_Units" = true ->
      (forall r, In r (rows df) -> exists x, Installed_Capacity r = Number x) ->
      length (rows df) = 2
      \/ (2 <= length (rows df)
          /\ forall r, In r (rows df) -> Number_of_Units r <> NaN /\ capacity r <> NaN) ->
      exists a, perform_analysis df = Ok a)
  /\ (length (rows df) < 2 -> aborted (perform_analysis df)).
Proof.
  intros Hundef. split; [|split; [|apply perform_analysis_short]].
  - intros a Ha. apply analysis_ok in Ha as (c & Hc & ->).
    rewrite (pearsonr_undefined df c Hundef Hc).
    split; [reflexivity|]. intros s. simpl.
    split; [reflexivity|]. intros q H. symmetry in H.
    exact (format_2f_not_nan q H).
  - intros Hs Hc Hf Hu Hnum Hcase.
    apply perform_analysis_total; try assumption.
    + destruct Hcase as [E | [H _]]; [rewrite E; constructor | exact H].
    + destruct Hcase as [E | [_ H]]; [left; exact E | right; exact H].
Qed.

(** No complete observation among two records, a constant capacity among
    three complete records, and a single record. *)
Lemma C1_witness :
  (exists a, perform_analysis no_capacity_df = Ok a
             /\ capacity_units_correlation a = CorrNaN
             /\ forall s, report_correlation (generate_report s a) = "nan")
  /\ (exists a, perform_analysis constant_capacity_df = Ok a
                /\ capacity_units_correlation a = CorrNaN
                /\ forall s, report_correlation (generate_report s a) = "nan")
  /\ aborted (perform_analysis one_row_df).
Proof.
  split; [|split].
  - assert (Hnum : forall r, In r (rows no_capacity_df) ->
              exists x, Installed_Capacity r = Number x).
    { intros r Hr. simpl in Hr.
      repeat (destruct Hr as [<- | Hr]; [eexists; reflexivity|]). contradiction. }
    assert (Hundef : correlation_undefined no_capacity_df) by (left; simpl; lia).
    destruct (C1_undefined_correlation no_capacity_df Hundef) as (Hnan & Hret & _).
    destruct (Hret eq_refl eq_refl eq_refl eq_refl Hnum (or_introl eq_refl))
      as [a Ha].
    destruct (Hnan a Ha) as [H1 H2].
    exists a. split; [exact Ha|]. split; [exact H1|]. intros s. apply H2.
  - assert (Hnum : forall r, In r (rows constant_capacity_df) ->
              exists x, Installed_Capacity r = Number x).
    { intros r Hr. simpl in Hr.
      repeat (destruct Hr as [<- | Hr]; [eexists; reflexivity|]). contradiction. }
    assert (Hall : forall r, In r (rows constant_capacity_df) ->
              Number_of_Units r <> NaN /\ capacity r <> NaN).
    { intros r Hr. simpl in Hr.
      repeat (destruct Hr as [<- | Hr]; [split; discriminate|]). contradiction. }
    assert (Hlen : 2 <= length (rows constant_capacity_df)) by (simpl; lia).
    assert (Hundef : correlation_undefined constant_capacity_df)
      by (right; right; vm_compute; reflexivity).
    destruct (C1_undefined_correlation constant_capacity_df Hundef)
      as (Hnan & Hret & _).
    destruct (Hret eq_refl eq_refl eq_refl eq_refl Hnum (or_intror (conj Hlen Hall)))
      as [a Ha].
    destruct (Hnan a Ha) as [H1 H2].
    exists a. split; [exact Ha|]. split; [exact H1|]. intros s. apply H2.
  - assert (Hundef : correlation_undefined one_row_df) by (left; simpl; lia).
    destruct (C1_undefined_correlation one_row_df Hundef) as (_ & _ & H).
    apply H. simpl. lia.
Defined.

(** * Further properties *)

(** ** Cleaning *)

Lemma has_column_add_inv (label l : string) (cols : list string) :
  label <> l ->
  existsb (String.eqb label) (add_column l cols) = true ->
  existsb (String.eqb label) cols = true.
Proof.
  intros Hne. unfold add_column.
  destruct (existsb (String.eqb l) cols); [auto|].
  rewrite existsb_app. simpl. destruct (String.eqb_spec label l); [contradiction|].
  rewrite orb_false_r. auto.
Qed.

Lemma Forall2_map_self {A B : Type} (P : A -> B -> Prop) (f : A -> B) (l : list A) :
  (forall a, In a l -> P a (f a)) -> Forall2 P l (map f l).
Proof.
  induction l as [|a l IH]; simpl; intros H; constructor; auto.
Qed.

(** X1.  [load_and_clean_data] returns a frame exactly when the frame read
    from the file has a coordinate column and a capacity column, the longest
    coordinate text has two components and every component is a numeral. *)
Theorem clean_returns_iff
  (float_of_string to_numeric_text : string -> option float) (df : DataFrame) :
  (exists df', load_and_clean_data float_of_string to_numeric_text df = Ok df')
  <-> (has_column df "Coordinates" = true
       /\ has_column df "Installed_Capacity" = true
       /\ split_width df = 2
       /\ components_numeric float_of_string df).
Proof.
  split.
  - intros [df' H]. apply clean_ok in H as (Hc & Hw & Hp & _ & Hcols & Hcap).
    repeat split; try assumption.
    unfold has_column in Hcap |- *. rewrite Hcols in Hcap.
    apply has_column_add_inv in Hcap; [|discriminate].
    apply has_column_add_inv in Hcap; [exact Hcap | discriminate].
  - intros (Hc & Hcap & Hw & Hp). apply clean_succeeds; assumption.
Qed.

Lemma clean_returns_iff_witness :
  (exists df', load_and_clean_data read_decimal read_decimal two_raw_df = Ok df')
  /\ ~ (exists df', load_and_clean_data read_decimal read_decimal three_parts_df = Ok df').
Proof.
  split.
  - apply (proj2 (clean_returns_iff read_decimal read_decimal two_raw_df)).
    split; [reflexivity|]. split; [reflexivity|]. split; [reflexivity|].
    intros r part Hr Hp. simpl in Hr.
    destruct Hr as [<- | [<- | []]]; simpl in Hp;
      destruct Hp as [Hp | [Hp | []]]; injection Hp as <-; discriminate.
  - intros H.
    apply (proj1 (clean_returns_iff read_decimal read_decimal three_parts_df)) in H.
    destruct H as (_ & _ & Hw & _). vm_compute in Hw. discriminate Hw.
Defined.

(** X2.  When cleaning returns, the frame has the same records in the same
    order, each with its identifier, project, facility, state, coordinate
    text and unit count untouched; every column of the input is still
    there, and the latitude and longitude columns exist. *)
Theorem clean_preserves_records
  (float_of_string to_numeric_text : string -> option float) (df df' : DataFrame) :
  load_and_clean_data float_of_string to_numeric_text df = Ok df' ->
  length (rows df') = length (rows df)
  /\ Forall2 same_source_fields (rows df) (rows df')
  /\ (forall label, has_column df label = true -> has_column df' label = true)
  /\ has_column df' "Latitude" = true
  /\ has_column df' "Longitude" = true.
Proof.
  intros H. apply clean_ok in H as (_ & _ & _ & Hrows & Hcols & _).
  rewrite Hrows. split; [apply length_map|].
  split; [apply Forall2_map_self; intros r _; repeat split|].
  split; [intros label; apply has_column_cleaned; exact Hcols|].
  unfold has_column. rewrite Hcols.
  split; [apply has_column_add|]; apply add_column_has.
Qed.

Lemma clean_preserves_records_witness :
  exists df',
    load_and_clean_data read_decimal read_decimal two_raw_df = Ok df'
    /\ length (rows df') = 2
    /\ Forall2 same_source_fields (rows two_raw_df) (rows df')
    /\ has_column df' "Latitude" = true.
Proof.
  destruct (load_and_clean_data read_decimal read_decimal two_raw_df)
    as [df' | e] eqn:E; [|discriminate E].
  destruct (clean_preserves_records read_decimal read_decimal two_raw_df df' E)
    as (H1 & H2 & _ & H4 & _).
  exists df'. repeat split; assumption.
Defined.

Lemma add_column_present (l : string) (cols : list string) :
  existsb (String.eqb l) cols = true -> add_column l cols = cols.
Proof. unfold add_column. intros ->. reflexivity. Qed.

Lemma clean_row_idempotent
  (float_of_string to_numeric_text : string -> option float) (r : Row) :
  clean_row float_of_string to_numeric_text
    (clean_row float_of_string to_numeric_text r)
  = clean_row float_of_string to_numeric_text r.
Proof.
  unfold clean_row, set_capacity, set_coordinates, row_latlon. simpl.
  destruct (Installed_Capacity r) as [t | x]; simpl; [|reflexivity].
  destruct (to_numeric_text t); reflexivity.
Qed.

(** X3.  Cleaning is idempotent: applied to a frame it has returned, it
    returns that same frame (the coordinate text is kept, so latitude and
    longitude are recomputed to the same values, and a numeric capacity is
    left alone). *)
Theorem clean_idempotent
  (float_of_string to_numeric_text : string -> option float) (df df' : DataFrame) :
  load_and_clean_data float_of_string to_numeric_text df = Ok df' ->
  load_and_clean_data float_of_string to_numeric_text df' = Ok df'.
Proof.
  intros H. pose proof H as H0.
  apply clean_ok in H as (Hc & Hw & Hp & Hrows & Hcols & Hcap).
  assert (Hcomp : map components (rows df') = map components (rows df)).
  { rewrite Hrows, map_map. apply map_ext. intros r. reflexivity. }
  destruct (clean_succeeds float_of_string to_numeric_text df') as [df'' H2].
  - eapply has_column_cleaned; eassumption.
  - exact Hcap.
  - unfold split_width. rewrite Hcomp. exact Hw.
  - intros r' part Hr' Hpart. rewrite Hrows in Hr'.
    apply in_map_iff in Hr' as (r & <- & Hr). apply (Hp r part Hr). exact Hpart.
  - rewrite H2. f_equal.
    apply clean_ok in H2 as (_ & _ & _ & Hrows2 & Hcols2 & _).
    destruct df'' as [cols2 rows2], df' as [cols1 rows1]. simpl in *.
    f_equal.
    + rewrite Hcols2, Hcols.
      rewrite (add_column_present "Latitude").
      * apply add_column_present, add_column_has.
      * apply has_column_add, add_column_has.
    + rewrite Hrows2, Hrows, map_map. apply map_ext.
      intros r. apply clean_row_idempotent.
Qed.

Lemma clean_idempotent_witness :
  exists df',
    load_and_clean_data read_decimal read_decimal two_raw_df = Ok df'
    /\ load_and_clean_data read_decimal read_decimal df' = Ok df'.
Proof.
  destruct (load_and_clean_data read_decimal read_decimal two_raw_df)
    as [df' | e] eqn:E; [|discriminate E].
  exists df'. split; [reflexivity|].
  exact (clean_idempotent read_decimal read_decimal two_raw_df df' E).
Defined.

(** X4.  After a successful cleaning every capacity cell is a float, so the
    summary stage cannot fail on a value: it returns exactly when the file
    has a state column and a facility column. *)
Theorem summary_after_cleaning
  (float_of_string to_numeric_text : string -> option float) (df df' : DataFrame) :
  load_and_clean_data float_of_string to_numeric_text df = Ok df' ->
  (forall r, In r (rows df') -> exists x, Installed_Capacity r = Number x)
  /\ ((exists s, generate_statistical_summary df' = Ok s)
      <-> has_column df "State" = true /\ has_column df "Facility" = true).
Proof.
  intros H. apply clean_ok in H as (_ & _ & _ & Hrows & Hcols & Hcap).
  assert (Hnum : forall r, In r (rows df') -> exists x, Installed_Capacity r = Number x).
  { intros r' Hr'. rewrite Hrows in Hr'. apply in_map_iff in Hr' as (r & <- & _).
    unfold clean_row. simpl.
    destruct (Installed_Capacity r) as [t | x]; simpl; [|eexists; reflexivity].
    destruct (to_numeric_text t); eexists; reflexivity. }
  split; [exact Hnum|]. split.
  - intros [s Hs]. unfold generate_statistical_summary in Hs. bind_inv Hs.
    apply getitem_ok in Hv as [Hstate _]. apply getitem_ok in Hv2 as [Hfac _].
    unfold has_column in *. rewrite Hcols in Hstate, Hfac.
    split.
    + apply has_column_add_inv in Hstate; [|discriminate].
      apply has_column_add_inv in Hstate; [exact Hstate | discriminate].
    + apply has_column_add_inv in Hfac; [|discriminate].
      apply has_column_add_inv in Hfac; [exact Hfac | discriminate].
  - intros [Hstate Hfac]. apply summary_total; try assumption;
      eapply has_column_cleaned; eassumption.
Qed.

Lemma summary_after_cleaning_witness :
  exists df' s,
    load_and_clean_data read_decimal read_decimal two_raw_df = Ok df'
    /\ generate_statistical_summary df' = Ok s
    /\ total_projects s = 2.
Proof.
  destruct (load_and_clean_data read_decimal read_decimal two_raw_df)
    as [df' | e] eqn:E; [|discriminate E].
  destruct (summary_after_cleaning read_decimal read_decimal two_raw_df df' E)
    as [_ [_ H]].
  destruct (H (conj eq_refl eq_refl)) as [s Hs].
  exists df', s. split; [reflexivity|]. split; [exact Hs|].
  apply summary_ok in Hs. subst s. simpl.
  vm_compute in E. injection E as <-. reflexivity.
Defined.

(** ** Counting *)

Lemma list_sum_perm (l l' : list nat) : Permutation l l' -> list_sum l = list_sum l'.
Proof. induction 1; simpl; lia. Qed.

Lemma indicator_count (K : list string) (o : option string) :
  NoDup K ->
  list_sum (map (fun k => if is_label k o then 1 else 0) K)
  = if has_group K o then 1 else 0.
Proof.
  induction 1 as [|k K Hnotin Hnd IH]; simpl; [reflexivity|].
  rewrite IH. destruct (is_label k o) eqn:E; simpl; [|reflexivity].
  destruct (has_group K o) eqn:E'; [|reflexivity].
  apply is_label_true in E. apply has_group_true in E' as (k' & Hin & E').
  exfalso. apply Hnotin. congruence.
Qed.

Lemma list_sum_plus {A : Type} (f g : A -> nat) (l : list A) :
  list_sum (map (fun a => f a + g a) l) = list_sum (map f l) + list_sum (map g l).
Proof. induction l as [|a l IH]; simpl; [reflexivity|]. rewrite IH. lia. Qed.

Lemma occurrences_total (K : list string) (l : list (option string)) :
  NoDup K ->
  list_sum (map (fun k => occurrences k l) K) = length (filter (has_group K) l).
Proof.
  intros Hnd. induction l as [|o l IH].
  - simpl. induction K as [|k K IHK]; simpl; [reflexivity|].
    inversion Hnd; subst. rewrite IHK by assumption. reflexivity.
  - assert (E : forall k, occurrences k (o :: l)
                          = (if is_label k o then 1 else 0) + occurrences k l).
    { intros k. unfold occurrences. simpl. destruct (is_label k o); reflexivity. }
    rewrite (map_ext _ _ E), list_sum_plus, IH, indicator_count by assumption.
    simpl. destruct (has_group K o); reflexivity.
Qed.

Lemma value_counts_total (l : list (option string)) :
  list_sum (map snd (value_counts l)) = length (filter notna_label l).
Proof.
  unfold value_counts.
  rewrite (list_sum_perm _ _ (Permutation_map snd (sort_by_perm _ _))).
  rewrite map_map. simpl. rewrite occurrences_total by apply unique_NoDup.
  f_equal. apply filter_ext_in. intros o Ho. destruct o as [k|]; simpl.
  - apply has_group_true. exists k. split; [|reflexivity].
    apply unique_In, somes_In. exact Ho.
  - destruct (has_group (unique (somes l)) None) eqn:E; [|reflexivity].
    apply has_group_true in E as (k & _ & E). discriminate.
Qed.

Lemma value_counts_keys_NoDup (l : list (option string)) :
  NoDup (map fst (value_counts l)).
Proof.
  unfold value_counts.
  eapply Permutation_NoDup;
    [apply Permutation_map, Permutation_sym, sort_by_perm|].
  rewrite map_map. simpl. rewrite map_id. apply unique_NoDup.
Qed.

Lemma occurrences_positive (k : string) (l : list (option string)) :
  In (Some k) l -> 1 <= occurrences k l.
Proof.
  unfold occurrences. induction l as [|o l IH]; simpl; [tauto|].
  intros [-> | H].
  - simpl. rewrite String.eqb_refl. simpl. lia.
  - specialize (IH H). destruct (is_label k o); simpl; lia.
Qed.

Lemma filter_map_length {A B : Type} (f : A -> B) (P : B -> bool) (l : list A) :
  length (filter P (map f l)) = length (filter (fun a => P (f a)) l).
Proof.
  induction l as [|a l IH]; simpl; [reflexivity|].
  destruct (P (f a)); simpl; rewrite IH; reflexivity.
Qed.

(** X5.  The count table of the summary is consistent with its totals: it
    has one entry per distinct state, no state twice, every entry counts at
    least one installation, and the counts add up to the number of records
    that carry a state label, hence to at most the number of projects. *)
Theorem summary_counts_consistent (df : DataFrame) (s : StatsSummary) :
  generate_statistical_summary df = Ok s ->
  length (state_counts s) = total_states s
  /\ NoDup (map fst (state_counts s))
  /\ Forall (fun e => 1 <= snd e) (state_counts s)
  /\ list_sum (map snd (state_counts s)) = labelled State df
  /\ list_sum (map snd (state_counts s)) <= total_projects s.
Proof.
  intros Hs. apply summary_ok in Hs. subst s. simpl.
  split; [apply value_counts_length|].
  split; [apply value_counts_keys_NoDup|].
  split.
  - apply Forall_forall. intros e He. apply value_counts_In in He as [Hin ->].
    apply occurrences_positive. exact Hin.
  - rewrite value_counts_total, filter_map_length. fold (labelled State df).
    split; [reflexivity|]. unfold labelled. apply filter_length_le.
Qed.

Lemma summary_counts_consistent_witness :
  exists s,
    generate_statistical_summary no_state_df = Ok s
    /\ total_projects s = 2
    /\ list_sum (map snd (state_counts s)) = 1
    /\ length (state_counts s) = total_states s.
Proof.
  destruct (generate_statistical_summary no_state_df) as [s | e] eqn:Hs;
    [|discriminate Hs].
  destruct (summary_counts_consistent no_state_df s Hs) as (H1 & _ & _ & H4 & _).
  exists s. split; [reflexivity|].
  split; [apply summary_ok in Hs; subst s; reflexivity|].
  split; [rewrite H4; reflexivity | exact H1].
Defined.

(** ** The report's rankings *)

Lemma StronglySorted_app_inv {A : Type} (R : A -> A -> Prop) (l1 l2 : list A) :
  StronglySorted R (l1 ++ l2) ->
  forall x y, In x l1 -> In y l2 -> R x y.
Proof.
  induction l1 as [|a l1 IH]; simpl; intros H x y Hx Hy; [contradiction|].
  inversion H as [|? ? Hs Hall]; subst.
  destruct Hx as [<- | Hx].
  - rewrite Forall_forall in Hall. apply Hall, in_or_app. right. exact Hy.
  - apply IH; assumption.
Qed.

Lemma top_of_sorted {A : Type} (R : A -> A -> Prop) (n : nat) (l : list A) :
  StronglySorted R l ->
  forall e, In e (skipn n l) -> Forall (fun t => R t e) (firstn n l).
Proof.
  intros Hs e He. apply Forall_forall. intros t Ht.
  rewrite <- (firstn_skipn n l) in Hs.
  exact (StronglySorted_app_inv R _ _ Hs t e Ht He).
Qed.

(** X6.  The report's two state rankings really are the top of their
    tables: a state left out of the top-3 by installation count has at most
    as many installations as each listed state, and a state left out of the
    top-3 by total capacity has at most the total capacity of each listed
    state, the ranking being a rearrangement of the per-state sums. *)
Theorem report_rankings_are_maximal (df : DataFrame) (s : StatsSummary)
  (a : AnalysisResults) :
  generate_statistical_summary df = Ok s ->
  perform_analysis df = Ok a ->
  let report := generate_report s a in
  (report_top_states report = firstn 3 (state_counts s)
   /\ forall e, In e (skipn 3 (state_counts s)) ->
        Forall (fun t => count_desc t e) (report_top_states report))
  /\ (exists ranking,
        Permutation ranking (state_sums a)
        /\ report_top_capacity_states report = firstn 3 ranking
        /\ forall e, In e (skipn 3 ranking) ->
             Forall (fun t => sum_desc t e) (report_top_capacity_states report)).
Proof.
  intros Hs Ha. apply summary_ok in Hs. subst s.
  apply analysis_ok in Ha as (r & _ & ->).
  unfold generate_report, head, state_sums.
  cbn [report_top_states report_top_capacity_states state_counts capacity_by_state].
  split.
  - split; [reflexivity|]. apply top_of_sorted, value_counts_sorted.
  - eexists. split; [apply sort_by_perm|]. split; [reflexivity|].
    apply top_of_sorted, sort_values_desc_sorted.
    apply Forall_forall. intros e He. apply in_map_iff in He as (g & <- & Hg).
    pose proof (groupby_agg_members State df) as Hm.
    rewrite Forall_forall in Hm. rewrite (Hm g Hg). simpl. discriminate.
Qed.

Lemma report_rankings_are_maximal_witness :
  exists s a,
    generate_statistical_summary script_df = Ok s
    /\ perform_analysis script_df = Ok a
    /\ skipn 3 (state_counts s) = [("NY", 1); ("TX", 1)]
    /\ Forall (fun t => count_desc t ("NY", 1))
              (report_top_states (generate_report s a)).
Proof.
  destruct (generate_statistical_summary script_df) as [s | e] eqn:Hs;
    [|discriminate Hs].
  destruct (perform_analysis script_df) as [a | e] eqn:Ha;
    [|discriminate Ha].
  destruct (report_rankings_are_maximal script_df s a Hs Ha) as [[_ H] _].
  exists s, a. split; [reflexivity|]. split; [reflexivity|].
  assert (E : skipn 3 (state_counts s) = [("NY", 1); ("TX", 1)])
    by (apply summary_ok in Hs; subst s; reflexivity).
  split; [exact E|]. apply H. rewrite E. left. reflexivity.
Defined.

(** ** The grouped tables *)

Lemma leb_ne_ltb (a b : string) : String.leb a b = true -> a <> b -> String.ltb a b = true.
Proof.
  unfold String.leb, String.ltb. intros H Hne.
  destruct (String.compare a b) eqn:E; try reflexivity; try discriminate.
  apply String.compare_eq_iff in E. contradiction.
Qed.

Lemma Sorted_strict (l : list string) :
  Sorted (fun a b => String.leb a b = true) l -> NoDup l ->
  Sorted (fun a b => String.ltb a b = true) l.
Proof.
  induction 1 as [|a l Hs IH Hhd]; intros Hnd; constructor.
  - apply IH. inversion Hnd; assumption.
  - inversion Hnd as [|? ? Hnotin _]; subst.
    destruct Hhd as [|b l Hab]; constructor.
    apply leb_ne_ltb; [exact Hab|]. intros ->. apply Hnotin. left. reflexivity.
Qed.

Lemma Sorted_map {A B : Type} (R : A -> A -> Prop) (R' : B -> B -> Prop)
  (f : A -> B) (l : list A) :
  (forall x y, R x y -> R' (f x) (f y)) -> Sorted R l -> Sorted R' (map f l).
Proof.
  intros Hf. induction 1 as [|a l Hs IH Hhd]; simpl; constructor; [exact IH|].
  destruct Hhd; simpl; constructor. apply Hf. assumption.
Qed.

Lemma group_keys_sorted (keys : list (option string)) :
  Sorted (fun a b => String.ltb a b = true) (group_keys keys).
Proof.
  apply Sorted_strict; [|apply group_keys_NoDup].
  unfold group_keys. induction (unique (somes keys)) as [|k l IH]; simpl;
    [constructor|].
  apply insert_sorted_sorted; [|exact IH].
  intros x y Hxy. destruct (String.leb_total x y) as [H | H]; [congruence | exact H].
Qed.

Lemma groupby_agg_structure (field : Row -> option string) (df : DataFrame) :
  let table := groupby_agg (map field (rows df)) (capacities df) in
  keys_ascending table
  /\ (forall k, In k (map fst table) <-> In (Some k) (map field (rows df)))
  /\ Forall (fun g =>
       agg_count (snd g) = length (dropna (group_capacities field (fst g) df))
       /\ agg_count (snd g) <= occurrences (fst g) (map field (rows df))) table.
Proof.
  simpl. split; [|split].
  - unfold keys_ascending, groupby_agg.
    eapply Sorted_map; [|apply group_keys_sorted]. intros x y H. exact H.
  - intros k. unfold groupby_agg. rewrite map_map. simpl. rewrite map_id.
    apply group_keys_In.
  - eapply Forall_impl; [|apply (groupby_agg_members field df)].
    intros g ->. simpl. rewrite Series_count_dropna. split; [reflexivity|].
    unfold group_capacities, occurrences.
    rewrite filter_map_length.
    eapply Nat.le_trans; [apply dropna_length_le|].
    rewrite length_map. apply Nat.le_refl.
Qed.

(** X7.  Both grouped tables of the analysis list their groups in strictly
    ascending key order, have a group for exactly the labels that occur in
    the grouping column, and count in each group the records whose capacity
    is present, which is at most the number of records of the group. *)
Theorem analysis_tables_structure (df : DataFrame) (a : AnalysisResults) :
  perform_analysis df = Ok a ->
  (keys_ascending (capacity_by_state a)
   /\ (forall k, In k (map fst (capacity_by_state a))
                 <-> In (Some k) (map State (rows df)))
   /\ Forall (fun g =>
        agg_count (snd g) = length (dropna (group_capacities State (fst g) df))
        /\ agg_count (snd g) <= occurrences (fst g) (map State (rows df)))
        (capacity_by_state a))
  /\ (keys_ascending (capacity_by_facility a)
      /\ (forall k, In k (map fst (capacity_by_facility a))
                    <-> In (Some k) (map Facility (rows df)))
      /\ Forall (fun g =>
           agg_count (snd g) = length (dropna (group_capacities Facility (fst g) df))
           /\ agg_count (snd g) <= occurrences (fst g) (map Facility (rows df)))
           (capacity_by_facility a)).
Proof.
  intros Ha. apply analysis_ok in Ha as (r & _ & ->). simpl.
  split; [apply (groupby_agg_structure State) | apply (groupby_agg_structure Facility)].
Qed.

Lemma analysis_tables_structure_witness :
  exists a,
    perform_analysis two_states_df = Ok a
    /\ map fst (capacity_by_state a) = ["KS"; "OK"]
    /\ map (fun g => agg_count (snd g)) (capacity_by_state a) = [1; 0]
    /\ keys_ascending (capacity_by_state a).
Proof.
  destruct (perform_analysis two_states_df) as [a | e] eqn:Ha; [|discriminate Ha].
  destruct (analysis_tables_structure two_states_df a Ha) as [[H _] _].
  exists a. split; [reflexivity|].
  assert (E : a = match perform_analysis two_states_df with
                  | Ok a0 => a0 | Err _ => a end) by (rewrite Ha; reflexivity).
  split; [rewrite E; reflexivity|]. split; [rewrite E; reflexivity | exact H].
Defined.

(** ** The coefficient lies between -1 and 1 *)

Lemma qdot_self (f : Q -> Q) (l : list Q) :
  qdot (map f l) (map f l) = Qsum (map (fun x => (f x * f x)%Q) l).
Proof. unfold qdot. rewrite combine_map_both, map_map. reflexivity. Qed.

Lemma qdot_self_nonneg (u : list Q) : (0 <= qdot u u)%Q.
Proof.
  unfold qdot. induction u as [|a u IH]; simpl; [apply Qle_refl|].
  pose proof (Qsquare_nonneg a). unfold Qsum in *. simpl in *. lra.
Qed.

Lemma cs_cross (a b A B C : Q) :
  (0 <= A -> 0 <= B -> C * C <= A * B ->
   2 * (a * b) * C <= a * a * B + A * (b * b))%Q.
Proof.
  intros HA HB HC.
  destruct (Qlt_le_dec 0 B) as [Hpos | Hzero].
  - apply (Qmult_lt_0_le_reg_r _ _ B Hpos).
    assert (E : ((a * a * B + A * (b * b)) * B - 2 * (a * b) * C * B
                 == (a * B - b * C) * (a * B - b * C) + b * b * (A * B - C * C))%Q)
      by ring.
    pose proof (Qsquare_nonneg (a * B - b * C)) as H1.
    pose proof (Qsquare_nonneg b) as H2.
    assert (H3 : (0 <= b * b * (A * B - C * C))%Q)
      by (apply Qmult_le_0_compat; [exact H2 | lra]).
    lra.
  - assert (EB : (B == 0)%Q) by lra.
    pose proof (Qsquare_nonneg C) as H1.
    assert (EC : (C * C == 0)%Q) by (rewrite EB in HC; lra).
    apply Qmult_integral in EC.
    assert (EC' : (C == 0)%Q) by (destruct EC; assumption).
    rewrite EC', EB.
    pose proof (Qsquare_nonneg b) as H2.
    assert (H3 : (0 <= A * (b * b))%Q) by (apply Qmult_le_0_compat; assumption).
    lra.
Qed.

(** Cauchy-Schwarz for finite series. *)
Lemma cauchy_schwarz (u v : list Q) :
  (qdot u v * qdot u v <= qdot u u * qdot v v)%Q.
Proof.
  revert v. induction u as [|a u IH]; intros [|b v].
  - unfold qdot. simpl. lra.
  - unfold qdot at 1 2 3. simpl. lra.
  - unfold qdot at 1 2 4. simpl. lra.
  - pose proof (IH v) as HC. pose proof (qdot_self_nonneg u) as HA.
    pose proof (qdot_self_nonneg v) as HB.
    pose proof (cs_cross a b _ _ _ HA HB HC) as Hx.
    assert (E1 : (qdot (a :: u) (b :: v) == a * b + qdot u v)%Q) by reflexivity.
    assert (E2 : (qdot (a :: u) (a :: u) == a * a + qdot u u)%Q) by reflexivity.
    assert (E3 : (qdot (b :: v) (b :: v) == b * b + qdot v v)%Q) by reflexivity.
    rewrite E1, E2, E3.
    assert (F1 : ((a * b + qdot u v) * (a * b + qdot u v)
                  == a * b * (a * b) + 2 * (a * b) * qdot u v + qdot u v * qdot u v)%Q)
      by ring.
    assert (F2 : ((a * a + qdot u u) * (b * b + qdot v v)
                  == a * b * (a * b) + (a * a * qdot v v + qdot u u * (b * b))
                     + qdot u u * qdot v v)%Q) by ring.
    rewrite F1, F2. lra.
Qed.

Lemma np_dot_self_present (u : list float) (b : Q) :
  np_dot u u = Some b -> exists us, u = map Some us.
Proof.
  revert b. induction u as [|[a|] u IH]; simpl; intros b H.
  - exists []. reflexivity.
  - destruct (np_dot u u) as [b'|] eqn:E; [|discriminate].
    destruct (IH b' eq_refl) as [us ->]. exists (a :: us). reflexivity.
  - discriminate.
Qed.

Lemma centred_present (x : list float) (xmean : float) (us : list Q) :
  x <> [] ->
  map (fun v => fsub v xmean) x = map Some us ->
  exists m xs, xmean = Some m /\ x = map Some xs
               /\ us = map (fun q => (q - m)%Q) xs.
Proof.
  intros Hne H. destruct xmean as [m|].
  - exists m. revert us H. clear Hne.
    induction x as [|[q|] x IH]; intros [|u us] H; simpl in H; try discriminate.
    + exists []. split; [reflexivity|]. split; reflexivity.
    + injection H as Hu Hrest. destruct (IH us Hrest) as (xs & _ & -> & ->).
      exists (q :: xs). subst u. split; [reflexivity|]. split; reflexivity.
  - destruct x as [|v x]; [contradiction|]. destruct us; simpl in H; [discriminate|].
    rewrite fsub_nan in H. discriminate.
Qed.

Lemma nonconstant_spread (xs : list Q) (m : Q) :
  is_constant (map Some xs) = false ->
  (0 < qdot (map (fun q => q - m) xs) (map (fun q => q - m) xs))%Q.
Proof.
  intros Hc. rewrite (qdot_self (fun q => (q - m)%Q)).
  pose proof (Qsum_sq_nonneg m xs) as Hge.
  destruct (Qlt_le_dec 0 (Qsum (map (fun x => (x - m) * (x - m)) xs))%Q)
    as [Hpos | Hle]; [exact Hpos|].
  exfalso.
  assert (Hz : (Qsum (map (fun x => (x - m) * (x - m)) xs) == 0)%Q) by lra.
  pose proof (Qsum_sq_zero m xs Hz) as Hall.
  destruct xs as [|x0 xs]; [discriminate Hc|].
  assert (Ht : is_constant (map Some (x0 :: xs)) = true).
  { unfold is_constant. cbn [map]. apply forallb_forall. intros v Hv.
    change (Some x0 :: map Some xs) with (map Some (x0 :: xs)) in Hv.
    apply in_map_iff in Hv as (x & <- & Hx). simpl. apply Qeq_bool_iff.
    rewrite (Hall x Hx), (Hall x0 (or_introl eq_refl)). reflexivity. }
  congruence.
Qed.

Lemma sign_product_bounded (p q : Q) :
  let s := (inject_Z (Z.sgn (Qnum p)) * inject_Z (Z.sgn (Qnum q)))%Q in
  (s * s <= 1)%Q.
Proof.
  destruct p as [[|n|n] d], q as [[|n'|n'] d']; vm_compute; discriminate.
Qed.

(** X9.  Whenever [pearsonr] returns a number, it is the quotient of a
    numerator by the square root of a positive quantity that bounds the
    numerator's square: the coefficient lies between -1 and 1. *)
Theorem pearsonr_between_minus_one_and_one (x y : list float) (num den2 : Q) :
  pearsonr x y = Ok (Corr num den2) ->
  (0 < den2)%Q /\ (num * num <= den2)%Q.
Proof.
  unfold pearsonr. cbv zeta.
  destruct (negb (Nat.eqb (length x) (length y))); [discriminate|].
  destruct (Nat.ltb_spec (length x) 2) as [_ | Hn]; [discriminate|].
  destruct (is_constant x) eqn:Hcx; [discriminate|].
  destruct (is_constant y) eqn:Hcy; [discriminate|]. simpl.
  destruct (Nat.eqb (length x) 2).
  - destruct (fsub (nth 1 x NaN) (nth 0 x NaN)) as [p|]; [|discriminate].
    destruct (fsub (nth 1 y NaN) (nth 0 y NaN)) as [q|]; [|discriminate].
    simpl. intros H. injection H as <- <-.
    split; [reflexivity|]. apply sign_product_bounded.
  - set (xm := map (fun v => fsub v (np_mean x)) x).
    set (ym := map (fun v => fsub v (np_mean y)) y).
    unfold linalg_norm2.
    destruct (np_dot xm xm) as [b|] eqn:Hxx; cbn [bind]; [|discriminate].
    destruct (np_dot ym ym) as [c|] eqn:Hyy; cbn [bind]; [|discriminate].
    destruct (np_dot xm ym) as [a|] eqn:Hxy; [|discriminate].
    intros H. injection H as <- <-. subst xm ym.
    assert (Hx : x <> []) by (destruct x; [simpl in Hn; lia | discriminate]).
    assert (Hy : y <> []) by (destruct y; [discriminate Hcy | discriminate]).
    destruct (np_dot_self_present _ _ Hxx) as [us Hus].
    destruct (np_dot_self_present _ _ Hyy) as [vs Hvs].
    destruct (centred_present x _ us Hx Hus) as (mx & xs & Hmx & Ex & Eus).
    destruct (centred_present y _ vs Hy Hvs) as (my & ys & Hmy & Ey & Evs).
    rewrite Hus, Hvs, np_dot_somes in Hxy. rewrite Hus, np_dot_somes in Hxx.
    rewrite Hvs, np_dot_somes in Hyy.
    injection Hxy as <-. injection Hxx as <-. injection Hyy as <-.
    split; [|apply cauchy_schwarz].
    rewrite Ex in Hcx. rewrite Ey in Hcy. subst us vs.
    pose proof (nonconstant_spread xs mx Hcx) as Hb.
    pose proof (nonconstant_spread ys my Hcy) as Hc.
    apply Qmult_lt_0_compat; assumption.
Qed.

Lemma pearsonr_between_minus_one_and_one_witness :
  exists num den2,
    pearsonr (map Number_of_Units data) (map capacity data) = Ok (Corr num den2)
    /\ (0 < den2)%Q /\ (num * num <= den2)%Q.
Proof.
  destruct (pearsonr (map Number_of_Units data) (map capacity data))
    as [[|num den2] | e] eqn:E; [discriminate E | | discriminate E].
  exists num, den2. split; [reflexivity|].
  exact (pearsonr_between_minus_one_and_one _ _ num den2 E).
Defined.

(** ** Two records *)

Lemma Qnum_zero (q : Q) : Qnum q = 0%Z -> (q == 0)%Q.
Proof. intros H. unfold Qeq. simpl. rewrite H. reflexivity. Qed.

Lemma sign_of_difference (p q : Q) :
  ~ (p == q)%Q ->
  Z.sgn (Qnum (q - p)) = 1%Z \/ Z.sgn (Qnum (q - p)) = (-1)%Z.
Proof.
  intros Hne. destruct (Qnum (q - p)) eqn:E; simpl; auto.
  exfalso. apply Hne. apply Qnum_zero in E. lra.
Qed.

(** X10.  On a table of exactly two records that both have a unit count and
    a capacity, with two different unit counts and two different capacities,
    the analysis returns a coefficient of exactly 1 or -1, and the report
    prints it as "1.00" or "-1.00". *)
Theorem two_records_correlate_perfectly (df : DataFrame) (a : AnalysisResults)
  (r0 r1 : Row) (u0 u1 c0 c1 : Q) :
  rows df = [r0; r1] ->
  Number_of_Units r0 = Some u0 -> Number_of_Units r1 = Some u1 ->
  capacity r0 = Some c0 -> capacity r1 = Some c1 ->
  ~ (u0 == u1)%Q -> ~ (c0 == c1)%Q ->
  perform_analysis df = Ok a ->
  (capacity_units_correlation a = Corr 1 1
   /\ forall s, report_correlation (generate_report s a) = "1.00")
  \/ (capacity_units_correlation a = Corr (-1) 1
      /\ forall s, report_correlation (generate_report s a) = "-1.00").
Proof.
  intros Hrows Hu0 Hu1 Hc0 Hc1 Hu Hc Ha.
  apply analysis_ok in Ha as (r & Hr & ->).
  unfold capacities in Hr. rewrite Hrows in Hr. simpl in Hr.
  rewrite Hu0, Hu1, Hc0, Hc1 in Hr.
  unfold pearsonr in Hr. simpl in Hr.
  assert (Eu : Qeq_bool u1 u0 = false).
  { destruct (Qeq_bool u1 u0) eqn:E; [|reflexivity].
    apply Qeq_bool_iff in E. exfalso. apply Hu. symmetry. exact E. }
  assert (Ec : Qeq_bool c1 c0 = false).
  { destruct (Qeq_bool c1 c0) eqn:E; [|reflexivity].
    apply Qeq_bool_iff in E. exfalso. apply Hc. symmetry. exact E. }
  rewrite Eu, Ec, !andb_false_r in Hr. simpl in Hr.
  change (Qnum u1 * QDen u0 + - Qnum u0 * QDen u1)%Z with (Qnum (u1 - u0)) in Hr.
  change (Qnum c1 * QDen c0 + - Qnum c0 * QDen c1)%Z with (Qnum (c1 - c0)) in Hr.
  destruct (sign_of_difference u0 u1 Hu) as [Su | Su];
    destruct (sign_of_difference c0 c1 Hc) as [Sc | Sc];
    rewrite Su, Sc in Hr; injection Hr as <-;
    [left | right | right | left]; split; try reflexivity; intros s; reflexivity.
Qed.

Lemma two_records_correlate_perfectly_witness :
  exists a,
    perform_analysis no_state_df = Ok a
    /\ capacity_units_correlation a = Corr 1 1
    /\ forall s, report_correlation (generate_report s a) = "1.00".
Proof.
  destruct (perform_analysis no_state_df) as [a | e] eqn:Ha; [|discriminate Ha].
  exists a. split; [reflexivity|].
  destruct (two_records_correlate_perfectly no_state_df a _ _ 1 2 1 2
              eq_refl eq_refl eq_refl eq_refl eq_refl) as [H | [H _]].
  - intros H. vm_compute in H. discriminate H.
  - intros H. vm_compute in H. discriminate H.
  - exact Ha.
  - exact H.
  - exfalso. injection Ha as <-. vm_compute in H. discriminate H.
Defined.

(** ** The whole run *)

Lemma mapM_inv {A B : Type} (f : A -> result B) (l : list A) (l' : list B) :
  mapM f l = Ok l' -> Forall2 (fun a b => f a = Ok b) l l'.
Proof.
  revert l'. induction l as [|a l IH]; simpl; intros l' H.
  - injection H as <-. constructor.
  - bind_inv H. injection H as <-. constructor; [assumption | apply IH; assumption].
Qed.

Lemma mapM_same_length {A B : Type} (f : A -> result B) (l : list A) (l' : list B) :
  mapM f l = Ok l' -> length l' = length l.
Proof. intros H. apply mapM_inv in H. symmetry. eapply Forall2_length, H. Qed.

Lemma cell_parts_nonempty (c : option string) : 1 <= length (cell_parts "," c).
Proof.
  destruct c as [s|]; simpl; [|lia]. rewrite length_map.
  destruct s as [|ch s]; simpl; [lia|].
  destruct (Ascii.eqb ch ","); simpl; [lia|].
  destruct (split "," s); simpl; lia.
Qed.

Lemma short_record_longitude (float_of_string : string -> option float) (r : Row) :
  components r < 2 -> snd (row_latlon float_of_string r) = NaN.
Proof.
  unfold components, row_latlon, pad. intros H.
  destruct (cell_parts "," (Coordinates r)) as [|p0 [|p1 l]]; simpl in *;
    [reflexivity | reflexivity | lia].
Qed.

Lemma create_map_valid (df : DataFrame) (m : Map) :
  create_map df = Ok m ->
  (forall r, In r (rows df) -> valid_coordinates r = true)
  /\ length (markers m) = length (rows df).
Proof.
  unfold create_map. intros H. bind_inv H. injection H as <-. simpl. split.
  - intros r Hr. destruct (valid_coordinates r) eqn:E; [reflexivity|].
    destruct (mapM_err (circle_marker df) (rows df) r Hr
                (circle_marker_invalid df r E)) as [e He].
    congruence.
  - eapply mapM_same_length. eassumption.
Qed.

Lemma create_map_total (df : DataFrame) :
  has_column df "Latitude" = true -> has_column df "Longitude" = true ->
  has_column df "Project_Name" = true -> has_column df "Facility" = true ->
  has_column df "Installed_Capacity" = true ->
  rows df <> [] ->
  (forall r, In r (rows df) -> valid_coordinates r = true) ->
  exists m, create_map df = Ok m.
Proof.
  intros Hlat Hlon Hproj Hfac Hcap Hne Hvalid. unfold create_map.
  rewrite (getitem_present _ _ _ Hlat), (getitem_present _ _ _ Hlon). simpl.
  destruct (Series_mean_present (map Latitude (rows df))) as [clat ->].
  { destruct (rows df); [contradiction | discriminate]. }
  { intros x Hx. apply in_map_iff in Hx as (r & <- & Hr).
    specialize (Hvalid r Hr). unfold valid_coordinates in Hvalid.
    destruct (Latitude r); [discriminate | discriminate]. }
  destruct (Series_mean_present (map Longitude (rows df))) as [clon ->].
  { destruct (rows df); [contradiction | discriminate]. }
  { intros x Hx. apply in_map_iff in Hx as (r & <- & Hr).
    specialize (Hvalid r Hr). unfold valid_coordinates in Hvalid.
    destruct (Latitude r), (Longitude r); discriminate. }
  simpl.
  destruct (mapM_total (circle_marker df) (rows df)) as [ms ->].
  { intros r Hr. specialize (Hvalid r Hr). unfold valid_coordinates in Hvalid.
    unfold circle_marker, row_item. rewrite Hlat, Hlon, Hproj, Hfac, Hcap. simpl.
    destruct (Latitude r), (Longitude r); try discriminate.
    simpl. eexists. reflexivity. }
  simpl. eexists. reflexivity.
Qed.

Lemma cleaned_capacity_numeric
  (float_of_string to_numeric_text : string -> option float) (r : Row) :
  exists x, Installed_Capacity (clean_row float_of_string to_numeric_text r) = Number x.
Proof.
  unfold clean_row. simpl.
  destruct (Installed_Capacity r) as [t | x]; simpl; [|eexists; reflexivity].
  destruct (to_numeric_text t); eexists; reflexivity.
Qed.

(** X12.  [main] returns only for complete tables: if it returns, the file
    has at least two records, every record's coordinate text has exactly
    two components, the map has one marker per record of the file, and the
    report's project count and state count are the number of records and
    the number of distinct state labels of the file. *)
Theorem main_returns_only_on_complete_tables
  (float_of_string to_numeric_text : string -> option float)
  (Figure : Type) (create_visualizations : DataFrame -> result Figure)
  (file : DataFrame) (out : Outputs Figure) :
  main float_of_string to_numeric_text create_visualizations file = Ok out ->
  load_and_clean_data float_of_string to_numeric_text file = Ok (out_df out)
  /\ 2 <= length (rows file)
  /\ (forall r, In r (rows file) -> components r = 2)
  /\ length (markers (out_map_viz out)) = length (rows file)
  /\ report_total_projects (out_report out) = length (rows file)
  /\ report_states_covered (out_report out) = nunique (map State (rows file)).
Proof.
  unfold main. intros H. bind_inv H. injection H as <-. simpl.
  pose proof Hv as Hclean.
  apply clean_ok in Hv as (_ & Hw & _ & Hrows & _ & _).
  apply create_map_valid in Hv2 as [Hvalid Hlen].
  assert (Hsame : length (rows v) = length (rows file))
    by (rewrite Hrows; apply length_map).
  split; [exact Hclean|]. split; [|split; [|split; [|split]]].
  - apply analysis_ok in Hv3 as (c & Hc & _).
    apply pearsonr_ok_length in Hc as [_ Hc]. rewrite length_map in Hc. lia.
  - intros r Hr.
    pose proof (components_le_width file r Hr) as Hle. rewrite Hw in Hle.
    destruct (Nat.lt_ge_cases (components r) 2) as [Hlt | Hge]; [|lia].
    exfalso.
    assert (Hin : In (clean_row float_of_string to_numeric_text r) (rows v))
      by (rewrite Hrows; apply in_map; exact Hr).
    specialize (Hvalid _ Hin). unfold valid_coordinates in Hvalid.
    change (Longitude (clean_row float_of_string to_numeric_text r))
      with (snd (row_latlon float_of_string r)) in Hvalid.
    rewrite (short_record_longitude float_of_string r Hlt) in Hvalid.
    rewrite andb_false_r in Hvalid. discriminate.
  - rewrite Hlen. exact Hsame.
  - apply summary_ok in Hv0. subst v0. simpl. exact Hsame.
  - apply summary_ok in Hv0. subst v0. simpl. rewrite Hrows, map_map.
    reflexivity.
Qed.

Lemma numeric_pair_parts (float_of_string : string -> option float) (r : Row) :
  numeric_pair float_of_string r ->
  exists a b x y,
    cell_parts "," (Coordinates r) = [Some a; Some b]
    /\ float_of_string a = Some (Some x) /\ float_of_string b = Some (Some y).
Proof.
  intros (a & b & x & y & Hc & Ha & Hb & Hx & Hy).
  exists a, b, x, y. rewrite Hc. unfold cell_parts.
  rewrite (split_pair a b Ha Hb). repeat split; assumption.
Qed.

(** X13.  [main] returns for every file that has the six columns it reads
    and at least two records, each with a coordinate text of two numerals,
    when the file has exactly two records or no record lacks a unit count or
    a capacity that [to_numeric] reads as a number, provided the plotting
    stage returns. *)
Theorem main_returns_on_complete_tables
  (float_of_string to_numeric_text : string -> option float)
  (Figure : Type) (create_visualizations : DataFrame -> result Figure)
  (file : DataFrame) :
  has_column file "Coordinates" = true ->
  has_column file "Installed_Capacity" = true ->
  has_column file "State" = true ->
  has_column file "Facility" = true ->
  has_column file "Project_Name" = true ->
  has_column file "Number_of_Units" = true ->
  2 <= length (rows file) ->
  (forall r, In r (rows file) -> numeric_pair float_of_string r) ->
  length (rows file) = 2
  \/ (forall r, In r (rows file) ->
        Number_of_Units r <> NaN
        /\ capacity (clean_row float_of_string to_numeric_text r) <> NaN) ->
  (forall df, exists fig, create_visualizations df = Ok fig) ->
  exists out, main float_of_string to_numeric_text create_visualizations file = Ok out.
Proof.
  intros Hcoord Hcap Hstate Hfac Hproj Hunits Hlen Hpairs Hcase Hviz.
  assert (Hcomp : forall r, In r (rows file) -> components r = 2).
  { intros r Hr. destruct (numeric_pair_parts _ r (Hpairs r Hr))
      as (a & b & x & y & E & _). unfold components. rewrite E. reflexivity. }
  assert (Hw : split_width file = 2).
  { unfold split_width. clear - Hlen Hcomp.
    destruct (rows file) as [|r0 l]; [simpl in Hlen; lia|]. clear Hlen.
    revert r0 Hcomp. induction l as [|r1 l IH]; intros r0 Hcomp; simpl.
    - rewrite (Hcomp r0 (or_introl eq_refl)). reflexivity.
    - rewrite (Hcomp r0 (or_introl eq_refl)).
      simpl in IH. rewrite (IH r1); [reflexivity|].
      intros r Hr. apply Hcomp. right. exact Hr. }
  destruct (clean_succeeds float_of_string to_numeric_text file Hcoord Hcap Hw)
    as [df Hclean].
  { intros r part Hr Hp. destruct (numeric_pair_parts _ r (Hpairs r Hr))
      as (a & b & x & y & E & Hx & Hy). rewrite E in Hp.
    destruct Hp as [Hp | [Hp | []]]; injection Hp as <-; congruence. }
  pose proof Hclean as Hc.
  apply clean_ok in Hc as (_ & _ & _ & Hrows & Hcols & Hcap').
  assert (Hnum : forall r, In r (rows df) -> exists x, Installed_Capacity r = Number x).
  { intros r' Hr'. rewrite Hrows in Hr'. apply in_map_iff in Hr' as (r & <- & _).
    apply cleaned_capacity_numeric. }
  pose proof (has_column_cleaned file df _ Hcols Hstate) as Hstate'.
  pose proof (has_column_cleaned file df _ Hcols Hfac) as Hfac'.
  pose proof (has_column_cleaned file df _ Hcols Hproj) as Hproj'.
  pose proof (has_column_cleaned file df _ Hcols Hunits) as Hunits'.
  assert (Hlen' : 2 <= length (rows df)) by (rewrite Hrows, length_map; exact Hlen).
  destruct (summary_total df Hstate' Hcap' Hfac' Hnum) as [s Hs].
  destruct (Hviz df) as [fig Hfig].
  destruct (create_map_total df) as [m Hm]; try assumption.
  { unfold has_column. rewrite Hcols. apply has_column_add, add_column_has. }
  { unfold has_column. rewrite Hcols. apply add_column_has. }
  { intros E. rewrite E in Hlen'. simpl in Hlen'. lia. }
  { intros r' Hr'. rewrite Hrows in Hr'. apply in_map_iff in Hr' as (r & <- & Hr).
    destruct (numeric_pair_parts _ r (Hpairs r Hr)) as (a & b & x & y & E & Hx & Hy).
    unfold valid_coordinates, clean_row, row_latlon. simpl. rewrite E. simpl.
    rewrite Hx, Hy. reflexivity. }
  destruct (perform_analysis_total df Hstate' Hcap' Hfac' Hunits' Hnum Hlen')
    as [a Ha].
  { destruct Hcase as [E | Hall]; [left; rewrite Hrows, length_map; exact E | right].
    intros r' Hr'. rewrite Hrows in Hr'. apply in_map_iff in Hr' as (r & <- & Hr).
    exact (Hall r Hr). }
  unfold main. rewrite Hclean. simpl. rewrite Hs. simpl. rewrite Hfig. simpl.
  rewrite Hm. simpl. rewrite Ha. simpl. eexists. reflexivity.
Qed.

(** The run on two well-formed records, the second with the capacity text
    ["n/a"], and on three well-formed records without a missing value, with
    a plotting stage that returns an empty figure. *)
Lemma main_returns_on_complete_tables_witness :
  (exists out, main read_decimal read_decimal (fun _ => Ok tt) two_raw_df = Ok out)
  /\ (exists out, main read_decimal read_decimal (fun _ => Ok tt) three_raw_df = Ok out).
Proof.
  assert (Hviz : forall df : DataFrame, exists fig, (fun _ => Ok tt) df = Ok fig)
    by (intros df; exists tt; reflexivity).
  split.
  - assert (Hlen : 2 <= length (rows two_raw_df)) by (simpl; lia).
    assert (Hpairs : forall r, In r (rows two_raw_df) -> numeric_pair read_decimal r).
    { intros r Hr. simpl in Hr. destruct Hr as [<- | [<- | []]].
      - exists "40.0", "-95.0". eexists. eexists. repeat split; reflexivity.
      - exists "41.0", "-96.0". eexists. eexists. repeat split; reflexivity. }
    exact (main_returns_on_complete_tables read_decimal read_decimal unit
             (fun _ => Ok tt) two_raw_df eq_refl eq_refl eq_refl eq_refl
             eq_refl eq_refl Hlen Hpairs (or_introl eq_refl) Hviz).
  - assert (Hlen : 2 <= length (rows three_raw_df)) by (simpl; lia).
    assert (Hpairs : forall r, In r (rows three_raw_df) -> numeric_pair read_decimal r).
    { intros r Hr. simpl in Hr. destruct Hr as [<- | [<- | [<- | []]]].
      - exists "40.0", "-95.0". eexists. eexists. repeat split; reflexivity.
      - exists "41.0", "-96.0". eexists. eexists. repeat split; reflexivity.
      - exists "42.0", "-97.0". eexists. eexists. repeat split; reflexivity. }
    assert (Hall : forall r, In r (rows three_raw_df) ->
              Number_of_Units r <> NaN
              /\ capacity (clean_row read_decimal read_decimal r) <> NaN).
    { intros r Hr. simpl in Hr.
      destruct Hr as [<- | [<- | [<- | []]]]; split; vm_compute; discriminate. }
    exact (main_returns_on_complete_tables read_decimal read_decimal unit
             (fun _ => Ok tt) three_raw_df eq_refl eq_refl eq_refl eq_refl
             eq_refl eq_refl Hlen Hpairs (or_intror Hall) Hviz).
Defined.

Lemma main_returns_only_on_complete_tables_witness :
  exists out,
    main read_decimal read_decimal (fun _ => Ok tt) two_raw_df = Ok out
    /\ 2 <= length (rows two_raw_df)
    /\ length (markers (out_map_viz out)) = 2
    /\ report_total_projects (out_report out) = 2
    /\ report_states_covered (out_report out) = 2.
Proof.
  destruct (main read_decimal read_decimal (fun _ => Ok tt) two_raw_df)
    as [out | e] eqn:Hout; [|discriminate Hout].
  exists out. split; [reflexivity|].
  destruct (main_returns_only_on_complete_tables _ _ _ _ _ _ Hout)
    as (_ & H2 & _ & H4 & H5 & H6).
  split; [exact H2|]. split; [exact H4|]. split; [exact H5|].
  rewrite H6. reflexivity.
Defined.
